(** * Transaction construction of the Ethereum bridge adapter

    A shallow embedding of [tokens/eth/buildtx.go]: the build of one raw
    transaction from a [BuildTxArgs] record, the resolution of gas price,
    nonce and gas limit, the swap payloads, the retried chain queries and
    the balance checks.

    The [*tokens.BuildTxArgs] the Go code mutates through its pointer is
    one cell of the state that every function threads; the chain gateway
    and the nonce sequencer are the other part of that state, together
    with a trace of the gateway calls, the sleeps and the sequencer calls,
    in the order they happen.  Calls to the logger are left out. *)

From Stdlib Require Import ZArith List String Ascii Bool Lia RelationClasses.
From Stdlib.Strings Require Import Byte.
Import ListNotations.
Local Open Scope string_scope.
Local Open Scope list_scope.
Local Open Scope Z_scope.

(** ** Machine integers and [math/big] *)

(** Arithmetic on [uint64] wraps modulo [2^64]. *)
Definition wrap_uint64 (z : Z) : Z := z mod 2 ^ 64.

(** The conversion [int64(x)] of an [x] of type [uint64]: the same 64 bits
    read in two's complement. *)
Definition to_int64 (z : Z) : Z := if z <? 2 ^ 63 then z else z - 2 ^ 64.

(** [Div] of [big.Int] is Euclidean division: the remainder is never
    negative.  A zero divisor panics in Go; no call here has one. *)
Definition big_Div (x y : Z) : Z := Z.sgn y * (x / Z.abs y).

(** ** Package-level variables *)

Definition retryRPCCount : nat := 3.
(** [1 * time.Second], a [time.Duration] in nanoseconds. *)
Definition retryRPCInterval : Z := 1 * 1000000000.
(** [big.NewInt(1e16)], 0.01 ETH. *)
Definition defReserveGasFee : Z := 10 ^ 16.
Definition defGasLimit : Z := 90000.

(** ** Data model *)

(** [common.Address] is a 20-byte array and [common.Hash] a 32-byte array;
    each is kept as the big-endian number its bytes spell, so that the
    zero value [common.Address{}] is [0]. *)
Definition Address := Z.
Definition Hash := Z.

(** [tokens.SwapType] with its three constants. *)
Inductive SwapTypeEnum : Type :=
| NoSwapType
| SwapinType
| SwapoutType.

Definition SwapType_eqb (x y : SwapTypeEnum) : bool :=
  match x, y with
  | NoSwapType, NoSwapType | SwapinType, SwapinType | SwapoutType, SwapoutType => true
  | _, _ => false
  end.

(** Modelled from the spec: [tokens.TokenConfig], which another package
    declares, with what the spec gives a pair configuration (token
    contract address, custodial signer address, "is token" flag, gas-price
    markup percentage, default gas limit) under the names this file reads.
    [IsErc20] is a method in the Go code.  The file converts
    [100+addPercent] to [int64] and assigns [DefaultGasLimit] to a
    [uint64]; both fields are taken to be [uint64]. *)
Record TokenConfig : Type := mkTokenConfig {
  DcrmAddress : string;
  ContractAddress : string;
  IsErc20 : bool;
  PlusGasPricePercentage : Z;
  DefaultGasLimit : Z
}.

(** Modelled from the spec: [tokens.EthExtraArgs], the numeric overrides
    of the intent; the file tests each of the three pointers against
    [nil]. *)
Record EthExtraArgs : Type := mkEthExtraArgs {
  Gas : option Z;
  GasPrice : option Z;
  Nonce : option Z
}.

(** Modelled from the spec: [tokens.AllExtras], with the one field this
    file reads and writes. *)
Record AllExtras : Type := mkAllExtras {
  EthExtra : option EthExtraArgs
}.

(** Modelled from the spec: [tokens.BuildTxArgs], the build intent, with
    the fields the spec lists under the names this file uses.  [Value]
    and [OriginValue] are [*big.Int], [Input] is [*[]byte] and [Extra] is
    [*AllExtras]: the file tests the first, the third and the fourth
    against [nil]. *)
Record BuildTxArgs : Type := mkBuildTxArgs {
  PairID : string;
  SwapID : string;
  SwapType : SwapTypeEnum;
  Bind : string;
  Identifier : string;
  From : string;
  To : string;
  Value : option Z;
  OriginValue : option Z;
  Input : option (list byte);
  Extra : option AllExtras
}.

Definition set_Identifier (v : string) (a : BuildTxArgs) : BuildTxArgs :=
  mkBuildTxArgs (PairID a) (SwapID a) (SwapType a) (Bind a) v (From a) (To a)
                (Value a) (OriginValue a) (Input a) (Extra a).
Definition set_From (v : string) (a : BuildTxArgs) : BuildTxArgs :=
  mkBuildTxArgs (PairID a) (SwapID a) (SwapType a) (Bind a) (Identifier a) v (To a)
                (Value a) (OriginValue a) (Input a) (Extra a).
Definition set_To (v : string) (a : BuildTxArgs) : BuildTxArgs :=
  mkBuildTxArgs (PairID a) (SwapID a) (SwapType a) (Bind a) (Identifier a) (From a) v
                (Value a) (OriginValue a) (Input a) (Extra a).
Definition set_Value (v : option Z) (a : BuildTxArgs) : BuildTxArgs :=
  mkBuildTxArgs (PairID a) (SwapID a) (SwapType a) (Bind a) (Identifier a) (From a) (To a)
                v (OriginValue a) (Input a) (Extra a).
Definition set_Input (v : option (list byte)) (a : BuildTxArgs) : BuildTxArgs :=
  mkBuildTxArgs (PairID a) (SwapID a) (SwapType a) (Bind a) (Identifier a) (From a) (To a)
                (Value a) (OriginValue a) v (Extra a).
Definition set_Extra (v : option AllExtras) (a : BuildTxArgs) : BuildTxArgs :=
  mkBuildTxArgs (PairID a) (SwapID a) (SwapType a) (Bind a) (Identifier a) (From a) (To a)
                (Value a) (OriginValue a) (Input a) v.

Definition set_Gas (v : option Z) (e : EthExtraArgs) : EthExtraArgs :=
  mkEthExtraArgs v (GasPrice e) (Nonce e).
Definition set_GasPrice (v : option Z) (e : EthExtraArgs) : EthExtraArgs :=
  mkEthExtraArgs (Gas e) v (Nonce e).
Definition set_Nonce (v : option Z) (e : EthExtraArgs) : EthExtraArgs :=
  mkEthExtraArgs (Gas e) (GasPrice e) v.

(** Modelled from the spec: the transaction record, made of the six
    arguments the file gives [types.NewTransaction]. *)
Record Transaction : Type := NewTransaction {
  tx_nonce : Z;
  tx_to : Address;
  tx_value : option Z;
  tx_gasLimit : Z;
  tx_gasPrice : option Z;
  tx_data : list byte
}.

(** An argument of [PackDataWithFuncHash], which takes [...interface{}]. *)
Inductive AbiArg : Type :=
| ArgHash (h : Hash)
| ArgAddress (a : Address)
| ArgBigInt (v : Z).

(** ** Errors *)

(** An error of the chain gateway, opaque to the builder. *)
Definition RpcError := string.

Inductive Error : Type :=
| ErrUnknownPairID                 (* tokens.ErrUnknownPairID *)
| ErrBuildSwapTxInWrongEndpoint    (* tokens.ErrBuildSwapTxInWrongEndpoint *)
| ErrForbidRawSwapTxWithInput      (* "forbid build raw swap tx with input data" *)
| ErrSwapinInvalidAddress          (* "can not swapin to empty or invalid address" *)
| ErrSwapoutInvalidAddress         (* "can not swapout to empty or invalid address" *)
| ErrNotEnoughTokenBalance (have need : Z)
    (* "not enough token balance, have %v, need %v" *)
| ErrNotEnoughCoinBalance (have : Z) (value gasFee : option Z)
    (* "not enough coin balance, have %v, need %v plus gas fee %v" *)
| ErrGetBalance (from : string) (err : Error)
    (* "get balance of %v error: %v" *)
| ErrRPC (err : RpcError).         (* an error of the gateway, as returned *)

(** Modelled from the spec: the error taxonomy of its section 7, which the
    code does not declare; each error value of the builder is filed under
    the kind whose description it matches. *)
Inductive ErrorKind : Type :=
| ConfigError
| DirectionError
| ValidationError
| TransientRPCError
| InsufficientBalanceError.

Definition error_kind (e : Error) : ErrorKind :=
  match e with
  | ErrUnknownPairID => ConfigError
  | ErrBuildSwapTxInWrongEndpoint => DirectionError
  | ErrForbidRawSwapTxWithInput
  | ErrSwapinInvalidAddress
  | ErrSwapoutInvalidAddress => ValidationError
  | ErrNotEnoughTokenBalance _ _
  | ErrNotEnoughCoinBalance _ _ _ => InsufficientBalanceError
  | ErrGetBalance _ _
  | ErrRPC _ => TransientRPCError
  end.

(** How a call ends: a value, a returned error, or a Go panic (a [nil]
    pointer dereferenced). *)
Inductive Outcome (A : Type) : Type :=
| Ok (a : A)
| Fail (e : Error)
| Panic.
Arguments Ok {A} a.
Arguments Fail {A} e.
Arguments Panic {A}.

(** ** The trace *)

Inductive RpcCall : Type :=
| RpcGetBalance (account : string)
| RpcGetErc20Balance (erc20Addr account : string)
| RpcSuggestPrice
| RpcGetPoolNonce (from height : string).

Inductive Event : Type :=
| EvCall (c : RpcCall)                     (* one attempt of a gateway call *)
| EvSleep (d : Z)                          (* time.Sleep(d) *)
| EvAdjustNonce (pairID : string) (nonce : Z).  (* one call of the sequencer *)

Definition is_adjust (ev : Event) : bool :=
  match ev with EvAdjustNonce _ _ => true | _ => false end.

(** ** Imported packages *)

(** The pure functions and constants of [common], [tokens], [params] and
    of the rest of package [eth] that the file calls. *)
Record Packages : Type := mkPackages {
  HexToAddress : string -> Address;                 (* common.HexToAddress *)
  IsHexAddress : string -> bool;                    (* common.IsHexAddress *)
  HexToHash : string -> Hash;                       (* common.HexToHash *)
  CalcSwappedValue : string -> option Z -> bool -> Z;  (* tokens.CalcSwappedValue *)
  PackDataWithFuncHash : list byte -> list AbiArg -> list byte;
  getSwapinFuncHash : list byte;
  erc20CodeParts_transfer : list byte;              (* erc20CodeParts["transfer"] *)
  UnlockMemoPrefix : string;                        (* tokens.UnlockMemoPrefix *)
  GetIdentifier : string                            (* params.GetIdentifier() *)
}.

(** ** The bridge and the state of a build *)

Section Build.

(** The state of what lies outside the process: the chain behind the
    gateway and the nonce sequencer. *)
Context {Net : Type}.

(** The receiver [b *Bridge]: its endpoint role, the pair registry, the
    four gateway calls ([GetPoolNonce] takes the block tag as well) and
    the nonce sequencer. *)
Record Bridge : Type := mkBridge {
  IsSrc : bool;
  GetTokenConfig : string -> option TokenConfig;
  GetBalance : string -> Net -> (RpcError + Z) * Net;
  GetErc20Balance : string -> string -> Net -> (RpcError + Z) * Net;
  SuggestPrice : Net -> (RpcError + Z) * Net;
  GetPoolNonce : string -> string -> Net -> (RpcError + Z) * Net;
  AdjustNonce : string -> Z -> Net -> Z * Net
}.

Record St : Type := mkSt {
  args : BuildTxArgs;
  net : Net;
  trace : list Event
}.

(** A computation on the state that ends in an [Outcome]. *)
Definition M (A : Type) : Type := St -> Outcome A * St.

Definition ret {A} (a : A) : M A := fun s => (Ok a, s).
Definition fail {A} (e : Error) : M A := fun s => (Fail e, s).
Definition panic {A} : M A := fun s => (Panic, s).
Definition bind {A B} (m : M A) (f : A -> M B) : M B :=
  fun s =>
    match m s with
    | (Ok a, s1) => f a s1
    | (Fail e, s1) => (Fail e, s1)
    | (Panic, s1) => (Panic, s1)
    end.

Notation "x <- m ;; k" := (bind m (fun x => k))
  (at level 61, m at next level, right associativity).
Notation "m ;; k" := (bind m (fun _ => k))
  (at level 61, right associativity).

Definition getArgs : M BuildTxArgs := fun s => (Ok (args s), s).
Definition modifyArgs (f : BuildTxArgs -> BuildTxArgs) : M unit :=
  fun s => (Ok tt, mkSt (f (args s)) (net s) (trace s)).
Definition emit (ev : Event) (s : St) : St :=
  mkSt (args s) (net s) (trace s ++ [ev]).

(** [*p] for a pointer that may be [nil]. *)
Definition deref {A} (p : option A) : M A :=
  match p with
  | Some a => ret a
  | None => panic
  end.

(** One attempt of a gateway call: the call is recorded, the state of the
    chain moves on and the answer comes back. *)
Definition attempt (c : RpcCall) (call : Net -> (RpcError + Z) * Net)
  : St -> (RpcError + Z) * St :=
  fun s =>
    let '(r, n1) := call (net s) in
    (r, mkSt (args s) n1 (trace s ++ [EvCall c])).

Variable pk : Packages.
Variable b : Bridge.

(** The loop the file writes out five times:
<<
    for i := 0; i < retryRPCCount; i++ {
        v, err = call()
        if err == nil { return v, nil }   // or break
        time.Sleep(retryRPCInterval)
    }
    return nil, err
>>
    [n] counts the iterations left and [err] is the variable [err], [nil]
    before the first attempt.  With nothing left and [err] still [nil] the
    Go code goes on with the zero value of [v], here [None]. *)
Fixpoint retryRPC (n : nat) (c : RpcCall) (call : Net -> (RpcError + Z) * Net)
         (err : option Error) : M (option Z) :=
  match n with
  | O => match err with
         | Some e => fail e
         | None => ret None
         end
  | S n' => fun s =>
      match attempt c call s with
      | (inr v, s1) => (Ok (Some v), s1)
      | (inl e, s1) =>
          (* time.Sleep(retryRPCInterval) *)
          retryRPC n' c call (Some (ErrRPC e)) (emit (EvSleep retryRPCInterval) s1)
      end
  end.

Definition getBalance (account : string) : M (option Z) :=
  retryRPC retryRPCCount (RpcGetBalance account) (GetBalance b account) None.

Definition getErc20Balance (erc20Addr account : string) : M (option Z) :=
  retryRPC retryRPCCount (RpcGetErc20Balance erc20Addr account)
           (GetErc20Balance b erc20Addr account) None.

Definition getDefaultGasLimit (pairID : string) : Z :=
  let gasLimit :=
    match GetTokenConfig b pairID with
    | Some tokenCfg => DefaultGasLimit tokenCfg
    | None => 0
    end in
  if gasLimit =? 0 then defGasLimit else gasLimit.

Definition getGasPrice : M (option Z) :=
  retryRPC retryRPCCount RpcSuggestPrice (SuggestPrice b) None.

(** The loop of [getAccountNonce], which breaks out on success. *)
Definition fetchPoolNonce (from : string) : M (option Z) :=
  retryRPC retryRPCCount (RpcGetPoolNonce from "pending") (GetPoolNonce b from "pending") None.

(** [b.AdjustNonce(pairID, nonce)] *)
Definition adjustNonce (pairID : string) (nonce : Z) : M Z :=
  fun s =>
    let '(v, n1) := AdjustNonce b pairID nonce (net s) in
    (Ok v, mkSt (args s) n1 (trace s ++ [EvAdjustNonce pairID nonce])).

Definition getAccountNonce (pairID from : string) (swapType : SwapTypeEnum) : M Z :=
  r <- fetchPoolNonce from ;;
  (* [var nonce uint64] is 0 until an attempt assigns it *)
  let nonce := match r with Some v => v | None => 0 end in
  if negb (SwapType_eqb swapType NoSwapType) then
    match GetTokenConfig b pairID with
    | Some tokenCfg =>
        if String.eqb from (DcrmAddress tokenCfg)
        then adjustNonce pairID nonce
        else ret nonce
    | None => ret nonce
    end
  else ret nonce.

(** The loop of [checkTokenBalance], which breaks out on success. *)
Definition checkTokenBalance (token from : string) (value : Z) : M unit :=
  r <- retryRPC retryRPCCount (RpcGetErc20Balance token from)
                (GetErc20Balance b token from) None ;;
  balance <- deref r ;;
  if balance <? value
  then fail (ErrNotEnoughTokenBalance balance value)
  else ret tt.

Definition checkCoinBalance (from : string) (value gasFee : option Z) : M unit :=
  fun s =>
    match getBalance from s with
    | (Fail err, s1) => (Fail (ErrGetBalance from err), s1)
    | (Panic, s1) => (Panic, s1)
    | (Ok r, s1) =>
        let needValue := 0 in
        let needValue :=
          match value with
          | Some v => if v >? 0 then needValue + v else needValue
          | None => needValue
          end in
        let needValue :=
          match gasFee with
          | Some f => if f >? 0 then needValue + f else needValue
          | None => needValue
          end in
        match r with
        | None => (Panic, s1)
        | Some balance =>
            if balance <? needValue
            then (Fail (ErrNotEnoughCoinBalance balance value gasFee), s1)
            else (Ok tt, s1)
        end
    end.

(** build input for calling [Swapin(bytes32 txhash, address account, uint256 amount)] *)
Definition buildSwapinTxInput : M unit :=
  a <- getArgs ;;
  let pairID := PairID a in
  let funcHash := getSwapinFuncHash pk in
  let txHash := HexToHash pk (SwapID a) in
  let address := HexToAddress pk (Bind a) in
  if (address =? 0) || negb (IsHexAddress pk (Bind a))
  then fail ErrSwapinInvalidAddress
  else
    let amount := CalcSwappedValue pk pairID (OriginValue a) true in
    let input := PackDataWithFuncHash pk funcHash
                   [ArgHash txHash; ArgAddress address; ArgBigInt amount] in
    modifyArgs (set_Input (Some input)) ;;
    match GetTokenConfig b pairID with
    | None => fail ErrUnknownPairID
    | Some token => modifyArgs (set_To (ContractAddress token))
    end.

Definition buildErc20SwapoutTxInput : M unit :=
  a <- getArgs ;;
  let pairID := PairID a in
  let funcHash := erc20CodeParts_transfer pk in
  let address := HexToAddress pk (Bind a) in
  if (address =? 0) || negb (IsHexAddress pk (Bind a))
  then fail ErrSwapoutInvalidAddress
  else
    let amount := CalcSwappedValue pk pairID (OriginValue a) false in
    let input := PackDataWithFuncHash pk funcHash [ArgAddress address; ArgBigInt amount] in
    modifyArgs (set_Input (Some input)) ;;
    match GetTokenConfig b pairID with
    | None => fail ErrUnknownPairID
    | Some token =>
        modifyArgs (set_To (ContractAddress token)) ;;
        checkTokenBalance (ContractAddress token) (DcrmAddress token) amount
    end.

(** The record the pointer [extra] of [setDefaults] points to.  It is the
    one held in [args.Extra.EthExtra], so a write through [extra] is a
    write to the intent. *)
Definition getExtra : M EthExtraArgs :=
  a <- getArgs ;;
  ex <- deref (Extra a) ;;
  deref (EthExtra ex).

Definition modifyExtra (f : EthExtraArgs -> EthExtraArgs) : M unit :=
  extra <- getExtra ;;
  modifyArgs (set_Extra (Some (mkAllExtras (Some (f extra))))).

Definition setDefaults : M EthExtraArgs :=
  a <- getArgs ;;
  match Value a with
  | None => modifyArgs (set_Value (Some 0))
  | Some _ => ret tt
  end ;;
  match Extra a with
  | Some (mkAllExtras (Some _)) => ret tt
  | _ => modifyArgs (set_Extra (Some (mkAllExtras (Some (mkEthExtraArgs None None None)))))
  end ;;
  extra <- getExtra ;;
  match GasPrice extra with
  | None =>
      price <- getGasPrice ;;
      modifyExtra (set_GasPrice price) ;;
      if negb (SwapType_eqb (SwapType a) NoSwapType) then
        match GetTokenConfig b (PairID a) with
        | None => fail ErrUnknownPairID
        | Some tokenCfg =>
            let addPercent := PlusGasPricePercentage tokenCfg in
            if addPercent >? 0 then
              p <- deref price ;;
              let p := p * to_int64 (wrap_uint64 (100 + addPercent)) in
              modifyExtra (set_GasPrice (Some (big_Div p 100)))
            else ret tt
        end
      else ret tt
  | Some _ => ret tt
  end ;;
  extra <- getExtra ;;
  match Nonce extra with
  | None =>
      nonce <- getAccountNonce (PairID a) (From a) (SwapType a) ;;
      modifyExtra (set_Nonce (Some nonce))
  | Some _ => ret tt
  end ;;
  extra <- getExtra ;;
  match Gas extra with
  | None => modifyExtra (set_Gas (Some (getDefaultGasLimit (PairID a))))
  | Some _ => ret tt
  end ;;
  getExtra.

Definition buildTx (extra : EthExtraArgs) (input : list byte) : M Transaction :=
  a <- getArgs ;;
  let to := HexToAddress pk (To a) in
  let value := Value a in
  nonce <- deref (Nonce extra) ;;
  gasLimit <- deref (Gas extra) ;;
  let gasPrice := GasPrice extra in
  value <-
    match SwapType a with
    | SwapoutType =>
        match GetTokenConfig b (PairID a) with
        | None => fail ErrUnknownPairID
        | Some tokenCfg =>
            if negb (IsErc20 tokenCfg)
            then ret (Some (CalcSwappedValue pk (PairID a) (OriginValue a) false))
            else ret value
        end
    | _ => ret value
    end ;;
  (if negb (SwapType_eqb (SwapType a) NoSwapType)
   then modifyArgs (set_Identifier (GetIdentifier pk))
   else ret tt) ;;
  gasFee <-
    (if SwapType_eqb (SwapType a) NoSwapType
     then p <- deref gasPrice ;; ret (p * gasLimit)
     else ret defReserveGasFee) ;;
  checkCoinBalance (From a) value (Some gasFee) ;;
  ret (NewTransaction nonce to value gasLimit gasPrice input).

(** BuildRawTransaction build raw tx *)
Definition BuildRawTransaction : M Transaction :=
  a <- getArgs ;;
  match Input a with
  | None =>
      tokenCfg <-
        (if negb (SwapType_eqb (SwapType a) NoSwapType) then
           match GetTokenConfig b (PairID a) with
           | None => fail ErrUnknownPairID
           | Some tokenCfg =>
               (if String.eqb (From a) ""
                then modifyArgs (set_From (DcrmAddress tokenCfg))
                else ret tt) ;;
               ret (Some tokenCfg)
           end
         else ret None) ;;
      input <-
        match SwapType a with
        | SwapinType =>
            if IsSrc b then fail ErrBuildSwapTxInWrongEndpoint
            else
              buildSwapinTxInput ;;
              a1 <- getArgs ;;
              deref (Input a1)
        | SwapoutType =>
            if negb (IsSrc b) then fail ErrBuildSwapTxInWrongEndpoint
            else
              cfg <- deref tokenCfg ;;
              if IsErc20 cfg then
                buildErc20SwapoutTxInput ;;
                a1 <- getArgs ;;
                deref (Input a1)
              else
                modifyArgs (set_To (Bind a)) ;;
                ret (list_byte_of_string (String.append (UnlockMemoPrefix pk) (SwapID a)))
        | NoSwapType => ret []
        end ;;
      extra <- setDefaults ;;
      buildTx extra input
  | Some input =>
      if negb (SwapType_eqb (SwapType a) NoSwapType)
      then fail ErrForbidRawSwapTxWithInput
      else
        extra <- setDefaults ;;
        buildTx extra input
  end.

(** ** Vocabulary of the statements *)

(** A swap direction asked of the endpoint that must not build it. *)
Definition wrong_endpoint (t : SwapTypeEnum) : Prop :=
  (t = SwapinType /\ IsSrc b = true) \/ (t = SwapoutType /\ IsSrc b = false).

(** The bind address passes the test both contract legs make. *)
Definition valid_bind (bindAddr : string) : bool :=
  negb ((HexToAddress pk bindAddr =? 0) || negb (IsHexAddress pk bindAddr)).

Definition swapin_payload (a : BuildTxArgs) : list byte :=
  PackDataWithFuncHash pk (getSwapinFuncHash pk)
    [ArgHash (HexToHash pk (SwapID a));
     ArgAddress (HexToAddress pk (Bind a));
     ArgBigInt (CalcSwappedValue pk (PairID a) (OriginValue a) true)].

Definition transfer_payload (a : BuildTxArgs) : list byte :=
  PackDataWithFuncHash pk (erc20CodeParts_transfer pk)
    [ArgAddress (HexToAddress pk (Bind a));
     ArgBigInt (CalcSwappedValue pk (PairID a) (OriginValue a) false)].

(** The recipient and the payload pointer that the leg of a build writes
    into the intent, when the build gets as far as writing them. *)
Definition leg_fields (a : BuildTxArgs) : option (string * option (list byte)) :=
  match Input a, SwapType a, GetTokenConfig b (PairID a) with
  | None, SwapinType, Some cfg =>
      if negb (IsSrc b) && valid_bind (Bind a)
      then Some (ContractAddress cfg, Some (swapin_payload a))
      else None
  | None, SwapoutType, Some cfg =>
      if IsSrc b then
        if IsErc20 cfg then
          if valid_bind (Bind a)
          then Some (ContractAddress cfg, Some (transfer_payload a))
          else None
        else Some (Bind a, None)
      else None
  | _, _, _ => None
  end.

(** What an amount adds to the required balance: nothing when the pointer
    is [nil] or the amount is not positive. *)
Definition counted (x : option Z) : Z :=
  match x with
  | Some v => Z.max 0 v
  | None => 0
  end.

(** The value of a [*big.Int] that [setDefaults] has made non-nil. *)
Definition value_or_zero (x : option Z) : Z :=
  match x with
  | Some v => v
  | None => 0
  end.

(** The events of [k] failed attempts of [c], each followed by its sleep. *)
Fixpoint failed_attempts (k : nat) (c : RpcCall) : list Event :=
  match k with
  | O => []
  | S k' => EvCall c :: EvSleep retryRPCInterval :: failed_attempts k' c
  end.

(** The retry policy, for an operation [op] that makes the gateway call
    [call], recorded as [c], and goes on with [k] once it has an answer:
    the first answer ends the attempts, and after three errors the third
    one is returned. *)
Definition retry_policy {A} (op : M A) (c : RpcCall)
           (call : Net -> (RpcError + Z) * Net) (k : Z -> M A) : Prop :=
  forall s : St,
    let after (j : nat) (n : Net) :=
      mkSt (args s) n (trace s ++ failed_attempts j c ++ [EvCall c]) in
    match call (net s) with
    | (inr v, n1) => op s = k v (after 0%nat n1)
    | (inl _, n1) =>
        match call n1 with
        | (inr v, n2) => op s = k v (after 1%nat n2)
        | (inl _, n2) =>
            match call n2 with
            | (inr v, n3) => op s = k v (after 2%nat n3)
            | (inl e3, n3) =>
                op s = (Fail (ErrRPC e3),
                        mkSt (args s) n3 (trace s ++ failed_attempts 3 c))
            end
        end
    end.

(** The sender is the custodial address of a known pair and the build is
    a swap: the case in which [getAccountNonce] calls the sequencer. *)
Definition custodial_swap (pairID from : string) (swapType : SwapTypeEnum) : bool :=
  negb (SwapType_eqb swapType NoSwapType) &&
  match GetTokenConfig b pairID with
  | Some tokenCfg => String.eqb from (DcrmAddress tokenCfg)
  | None => false
  end.

(** How often the sequencer was called. *)
Definition sequencer_calls (tr : list Event) : nat :=
  List.length (filter is_adjust tr).

(** [if args.From == "" { args.From = tokenCfg.DcrmAddress }] *)
Definition default_from (tokenCfg : TokenConfig) (a : BuildTxArgs) : BuildTxArgs :=
  if String.eqb (From a) "" then set_From (DcrmAddress tokenCfg) a else a.

(** [m] changes the intent only in ways that [R] allows. *)
Definition keeps (R : BuildTxArgs -> BuildTxArgs -> Prop) {A} (m : M A) : Prop :=
  forall s, R (args s) (args (snd (m s))).

(** Nothing but [Extra] differs. *)
Definition only_extra (a a' : BuildTxArgs) : Prop :=
  exists ex, a' = set_Extra ex a.

(** The gas price held through [args.Extra.EthExtra] is the same. *)
Definition same_gas_price (a a' : BuildTxArgs) : Prop :=
  forall e, Extra a = Some (mkAllExtras (Some e)) ->
            exists e', Extra a' = Some (mkAllExtras (Some e')) /\ GasPrice e' = GasPrice e.

(** The intent leaves the gas price to the builder. *)
Definition gas_price_unset (a : BuildTxArgs) : bool :=
  match Extra a with
  | Some (mkAllExtras (Some e)) =>
      match GasPrice e with
      | None => true
      | Some _ => false
      end
  | _ => true
  end.

(** The value [buildTx] gives the transaction. *)
Definition build_value (a : BuildTxArgs) : option Z :=
  match SwapType a, GetTokenConfig b (PairID a) with
  | SwapoutType, Some tokenCfg =>
      if negb (IsErc20 tokenCfg)
      then Some (CalcSwappedValue pk (PairID a) (OriginValue a) false)
      else Value a
  | _, _ => Value a
  end.

(** [if args.SwapType != tokens.NoSwapType { args.Identifier = params.GetIdentifier() }] *)
Definition stamp_identifier (a : BuildTxArgs) : BuildTxArgs :=
  if negb (SwapType_eqb (SwapType a) NoSwapType)
  then set_Identifier (GetIdentifier pk) a
  else a.

(** What follows the leg in [BuildRawTransaction]. *)
Definition resolve_and_build (input : list byte) : M Transaction :=
  extra <- setDefaults ;;
  buildTx extra input.

(** The state with another intent. *)
Definition with_args (a : BuildTxArgs) (s : St) : St := mkSt a (net s) (trace s).

(** Recipient and payload pointer are the same. *)
Definition same_leg (a a' : BuildTxArgs) : Prop :=
  To a' = To a /\ Input a' = Input a.

(** [BuildRawTransaction], one case for each way through its branches,
    up to the point where the parameters are resolved. *)
Definition build_cases (s : St) : Outcome Transaction * St :=
  let a := args s in
  match Input a with
  | Some input =>
      if negb (SwapType_eqb (SwapType a) NoSwapType)
      then (Fail ErrForbidRawSwapTxWithInput, s)
      else resolve_and_build input s
  | None =>
      match SwapType a, GetTokenConfig b (PairID a) with
      | NoSwapType, _ => resolve_and_build [] s
      | _, None => (Fail ErrUnknownPairID, s)
      | SwapinType, Some cfg =>
          let a0 := default_from cfg a in
          if IsSrc b then (Fail ErrBuildSwapTxInWrongEndpoint, with_args a0 s)
          else if valid_bind (Bind a) then
            resolve_and_build (swapin_payload a)
              (with_args (set_To (ContractAddress cfg)
                            (set_Input (Some (swapin_payload a)) a0)) s)
          else (Fail ErrSwapinInvalidAddress, with_args a0 s)
      | SwapoutType, Some cfg =>
          let a0 := default_from cfg a in
          if negb (IsSrc b) then (Fail ErrBuildSwapTxInWrongEndpoint, with_args a0 s)
          else if IsErc20 cfg then
            if valid_bind (Bind a) then
              bind (checkTokenBalance (ContractAddress cfg) (DcrmAddress cfg)
                      (CalcSwappedValue pk (PairID a) (OriginValue a) false))
                   (fun _ => resolve_and_build (transfer_payload a))
                   (with_args (set_To (ContractAddress cfg)
                                 (set_Input (Some (transfer_payload a)) a0)) s)
            else (Fail ErrSwapoutInvalidAddress, with_args a0 s)
          else
            resolve_and_build
              (list_byte_of_string (String.append (UnlockMemoPrefix pk) (SwapID a)))
              (with_args (set_To (Bind a) a0) s)
      end
  end.

(** ** Vocabulary of the further statements *)

(** [args.Extra.EthExtra], when neither pointer on the way is [nil]. *)
Definition extras_of (a : BuildTxArgs) : option EthExtraArgs :=
  match Extra a with
  | Some (mkAllExtras (Some e)) => Some e
  | _ => None
  end.

(** Gas limit, gas price and nonce are all set. *)
Definition all_resolved (e : EthExtraArgs) : Prop :=
  Gas e <> None /\ GasPrice e <> None /\ Nonce e <> None.

(** From [s] to [s1] the intent is the same and the sequencer was not
    called: at most the gateway was queried. *)
Definition quiet (s s1 : St) : Prop :=
  args s1 = args s /\ sequencer_calls (trace s1) = sequencer_calls (trace s).

(** Started in a state that satisfies [P], [m] does not panic; when it
    returns a value, [Q] holds of the value and the state, and when it
    returns an error, [F] holds of the error and the state. *)
Definition triple {A} (P : St -> Prop) (m : M A)
           (Q : A -> St -> Prop) (F : Error -> St -> Prop) : Prop :=
  forall s, P s ->
    match m s with
    | (Ok a, s') => Q a s'
    | (Fail e, s') => F e s'
    | (Panic, _) => False
    end.

(** The errors that come from the gateway or from the coin balance. *)
Definition network_or_balance_error (e : Error) : Prop :=
  match e with
  | ErrRPC _ => True
  | ErrGetBalance _ (ErrRPC _) => True
  | ErrNotEnoughCoinBalance _ _ _ => True
  | _ => False
  end.

(** The part of the intent no build writes. *)
Definition request_of (a : BuildTxArgs)
  : string * string * SwapTypeEnum * string * option Z :=
  (PairID a, SwapID a, SwapType a, Bind a, OriginValue a).

(** The overrides the intent comes with; an absent record sets none. *)
Definition given_extras (a : BuildTxArgs) : EthExtraArgs :=
  match extras_of a with
  | Some e => e
  | None => mkEthExtraArgs None None None
  end.

(** Every field that [e0] sets has the same value in [e]. *)
Definition keeps_overrides (e0 e : EthExtraArgs) : Prop :=
  (Gas e0 <> None -> Gas e = Gas e0) /\
  (GasPrice e0 <> None -> GasPrice e = GasPrice e0) /\
  (Nonce e0 <> None -> Nonce e = Nonce e0).

(** The intent [a] once [setDefaults] has made [Value] non-nil and holds
    [e] through [Extra]. *)
Definition initialised (a : BuildTxArgs) (e : EthExtraArgs) : BuildTxArgs :=
  set_Extra (Some (mkAllExtras (Some e)))
            (set_Value (Some (value_or_zero (Value a))) a).

(** The calls of the sequencer that resolving the parameters of [a]
    makes: one when the nonce is left to the builder and the sender is the
    custodial address of a swap, none otherwise. *)
Definition sequencer_used (a : BuildTxArgs) : nat :=
  match Nonce (given_extras a) with
  | Some _ => 0%nat
  | None => if custodial_swap (PairID a) (From a) (SwapType a) then 1%nat else 0%nat
  end.

(** The intent as the leg of a build leaves it when it ends without
    error: the sender defaulted, recipient and payload written. *)
Definition after_leg (a : BuildTxArgs) : BuildTxArgs :=
  match Input a, SwapType a, GetTokenConfig b (PairID a) with
  | None, SwapinType, Some cfg =>
      set_To (ContractAddress cfg)
             (set_Input (Some (swapin_payload a)) (default_from cfg a))
  | None, SwapoutType, Some cfg =>
      if IsErc20 cfg
      then set_To (ContractAddress cfg)
                  (set_Input (Some (transfer_payload a)) (default_from cfg a))
      else set_To (Bind a) (default_from cfg a)
  | _, _, _ => a
  end.

(** The local [input] of [BuildRawTransaction] when it reaches
    [setDefaults]. *)
Definition payload_of (a : BuildTxArgs) : list byte :=
  match Input a, SwapType a, GetTokenConfig b (PairID a) with
  | Some input, _, _ => input
  | None, SwapinType, _ => swapin_payload a
  | None, SwapoutType, Some cfg =>
      if IsErc20 cfg then transfer_payload a
      else list_byte_of_string (String.append (UnlockMemoPrefix pk) (SwapID a))
  | None, _, _ => []
  end.

(** What an error of a build started from the intent [a] says about [a]
    and about the balances read. *)
Definition error_cause (a : BuildTxArgs) (e : Error) : Prop :=
  match e with
  | ErrForbidRawSwapTxWithInput => Input a <> None /\ SwapType a <> NoSwapType
  | ErrUnknownPairID =>
      Input a = None /\ SwapType a <> NoSwapType /\ GetTokenConfig b (PairID a) = None
  | ErrBuildSwapTxInWrongEndpoint => Input a = None /\ wrong_endpoint (SwapType a)
  | ErrSwapinInvalidAddress =>
      Input a = None /\ SwapType a = SwapinType /\ valid_bind (Bind a) = false
  | ErrSwapoutInvalidAddress =>
      Input a = None /\ SwapType a = SwapoutType /\ valid_bind (Bind a) = false
  | ErrNotEnoughTokenBalance have need =>
      Input a = None /\ SwapType a = SwapoutType /\
      need = CalcSwappedValue pk (PairID a) (OriginValue a) false /\
      have < need
  | ErrNotEnoughCoinBalance have value gasFee =>
      have < counted value + counted gasFee
  | ErrGetBalance from (ErrRPC _) => from = From (after_leg a)
  | ErrGetBalance _ _ => False
  | ErrRPC _ => True
  end.

(** The errors of [checkCoinBalance]. *)
Definition coin_balance_error (e : Error) : bool :=
  match e with
  | ErrGetBalance _ _ | ErrNotEnoughCoinBalance _ _ _ => true
  | _ => false
  end.

(** What a build started in [s0] has done when it returns [tx] in the
    state [s]. *)
Definition built (s0 : St) (tx : Transaction) (s : St) : Prop :=
  let a := args s0 in
  exists extra,
    args s = stamp_identifier (initialised (after_leg a) extra) /\
    all_resolved extra /\
    keeps_overrides (given_extras a) extra /\
    (Gas (given_extras a) = None -> Gas extra = Some (getDefaultGasLimit (PairID a))) /\
    sequencer_calls (trace s) =
    (sequencer_calls (trace s0) + sequencer_used (after_leg a))%nat /\
    Some (tx_nonce tx) = Nonce extra /\
    Some (tx_gasLimit tx) = Gas extra /\
    tx_gasPrice tx = GasPrice extra /\
    tx_to tx = HexToAddress pk (To (after_leg a)) /\
    tx_data tx = payload_of a.

(** What is known when a build started in [s0] returns the error [e] in
    the state [s]. *)
Definition not_built (s0 : St) (e : Error) (s : St) : Prop :=
  error_cause (args s0) e /\
  sequencer_calls (trace s) =
  (sequencer_calls (trace s0) +
   if coin_balance_error e then sequencer_used (after_leg (args s0)) else 0)%nat.

(** The request fields are the same. *)
Definition same_request (a a' : BuildTxArgs) : Prop := request_of a' = request_of a.

(** The sender is the same. *)
Definition same_sender (a a' : BuildTxArgs) : Prop := From a' = From a.

End Build.

Arguments Bridge : clear implicits.
Arguments St : clear implicits.
Arguments M : clear implicits.

(** ** A test bench

    One chain, two pairs and plain implementations of the imported
    functions, to run the builder on concrete intents. *)

Module Bench.

(** The chain: the next [down] gateway calls fail; [issued] is the next
    nonce the sequencer has not handed out yet. *)
Record Chain : Type := mkChain {
  down : nat;
  coin : Z;
  token : Z;
  price : Z;
  pending : Z;
  issued : Z
}.

Definition answer (v : Z) (n : Chain) : (RpcError + Z) * Chain :=
  match down n with
  | O => (inr v, n)
  | S k => (inl "connection refused", mkChain k (coin n) (token n) (price n) (pending n) (issued n))
  end.

Definition hex_digit (c : ascii) : option Z :=
  let n := Z.of_nat (nat_of_ascii c) in
  if (48 <=? n) && (n <=? 57) then Some (n - 48)
  else if (97 <=? n) && (n <=? 102) then Some (n - 87)
  else if (65 <=? n) && (n <=? 70) then Some (n - 55)
  else None.

Fixpoint hex_value (acc : Z) (s : string) : option Z :=
  match s with
  | EmptyString => Some acc
  | String c s' =>
      match hex_digit c with
      | Some d => hex_value (16 * acc + d) s'
      | None => None
      end
  end.

Definition strip0x (s : string) : string :=
  match s with
  | String "0" (String "x" s') => s'
  | String "0" (String "X" s') => s'
  | _ => s
  end.

Definition hexToNumber (bits : Z) (s : string) : Z :=
  match hex_value 0 (strip0x s) with
  | Some v => v mod 2 ^ bits
  | None => 0
  end.

Definition isHexAddress (s : string) : bool :=
  Nat.eqb (String.length (strip0x s)) 40 &&
  match hex_value 0 (strip0x s) with
  | Some _ => true
  | None => false
  end.

Definition byte_of_Z (z : Z) : byte :=
  match Byte.of_N (Z.to_N (z mod 256)) with
  | Some x => x
  | None => x00
  end.

Fixpoint be_bytes (k : nat) (v : Z) : list byte :=
  match k with
  | O => []
  | S k' => be_bytes k' (v / 256) ++ [byte_of_Z v]
  end.

Definition packArg (x : AbiArg) : list byte :=
  match x with
  | ArgHash h => be_bytes 32 h
  | ArgAddress a => be_bytes 32 a
  | ArgBigInt v => be_bytes 32 v
  end.

Definition packages : Packages :=
  {| HexToAddress := hexToNumber 160;
     IsHexAddress := isHexAddress;
     HexToHash := hexToNumber 256;
     CalcSwappedValue := fun _ v _ => value_or_zero v;
     PackDataWithFuncHash := fun h l => h ++ flat_map packArg l;
     getSwapinFuncHash := [xec; x12; x6c; x77];
     erc20CodeParts_transfer := [xa9; x05; x9c; xbb];
     UnlockMemoPrefix := "SWAPTO:";
     GetIdentifier := "bridge-test" |}.

Definition custodian : string := "0x00000000000000000000000000000000000000c1".
Definition contract : string := "0x00000000000000000000000000000000000000e2".
Definition user : string := "0x00000000000000000000000000000000000000a3".

(** Pair "COIN" is a native-coin pair, pair "TOKEN" a token pair with a
    markup of [markup] per cent. *)
Definition registry (markup : Z) (pairID : string) : option TokenConfig :=
  if String.eqb pairID "COIN" then Some (mkTokenConfig custodian "" false markup 0)
  else if String.eqb pairID "TOKEN" then Some (mkTokenConfig custodian contract true markup 60000)
  else None.

Definition bridge (isSrc : bool) (markup : Z) : Bridge Chain :=
  {| IsSrc := isSrc;
     GetTokenConfig := registry markup;
     GetBalance := fun _ n => answer (coin n) n;
     GetErc20Balance := fun _ _ n => answer (token n) n;
     SuggestPrice := fun n => answer (price n) n;
     GetPoolNonce := fun _ _ n => answer (pending n) n;
     AdjustNonce := fun _ v n =>
       let r := Z.max v (issued n) in
       (r, mkChain (down n) (coin n) (token n) (price n) (pending n) (r + 1)) |}.

Definition chain : Chain :=
  mkChain 0 (2 * 10 ^ 16) 1000 100 7 0.

Definition intent (pairID : string) (t : SwapTypeEnum) (bindAddr from : string)
           (value : option Z) (input : option (list byte)) : BuildTxArgs :=
  mkBuildTxArgs pairID "0x5a" t bindAddr "" from "" value (Some 500) input None.

Definition start (a : BuildTxArgs) (n : Chain) : St Chain := mkSt a n [].

(** The intents the runs below start from. *)

(** A SwapIn for [user] on the token pair. *)
Definition swapin_intent : St Chain :=
  start (intent "TOKEN" SwapinType user "" None None) chain.

(** The same with a raw payload. *)
Definition raw_swapin_intent : St Chain :=
  start (intent "TOKEN" SwapinType user "" None (Some [x01])) chain.

(** A token SwapOut of 500 when the custodial address holds 100 tokens. *)
Definition poor_token_swapout : St Chain :=
  start (intent "TOKEN" SwapoutType user "" None None)
        (mkChain 0 (2 * 10 ^ 16) 100 100 7 0).

(** A coin SwapOut whose bind address is the empty string. *)
Definition unbound_coin_swapout : St Chain :=
  start (intent "COIN" SwapoutType "" "" (Some 7) None) chain.

(** A plain transfer from the custodial address, the sequencer being at 20. *)
Definition custodial_transfer : St Chain :=
  start (intent "TOKEN" NoSwapType user custodian None None)
        (mkChain 0 (2 * 10 ^ 16) 1000 100 7 20).

(** A swap from the custodial address, the sequencer being at 20. *)
Definition custodial_swapin : St Chain :=
  start (intent "TOKEN" SwapinType user custodian None None)
        (mkChain 0 (2 * 10 ^ 16) 1000 100 7 20).

(** A plain transfer of value [v] with gas price 1 and gas limit 10 set by
    the caller, from an account that holds [bal]. *)
Definition transfer (v bal : Z) : St Chain :=
  start (set_Extra (Some (mkAllExtras (Some (mkEthExtraArgs (Some 10) (Some 1) (Some 0)))))
                   (intent "" NoSwapType "" user (Some v) None))
        (mkChain 0 bal 0 100 7 0).

(** A chain whose gateway fails twice and then answers. *)
Definition flaky_chain : Chain := mkChain 2 (2 * 10 ^ 16) 1000 100 7 0.

(** The markup at which [100 + markup] no longer fits [int64]. *)
Definition huge_markup : Z := 2 ^ 63 - 100.

(** A SwapIn for [user] on the token pair that gives a gas price of 5 and
    leaves gas limit and nonce to the builder. *)
Definition priced_swapin : St Chain :=
  start (set_Extra (Some (mkAllExtras (Some (mkEthExtraArgs None (Some 5) None))))
                   (intent "TOKEN" SwapinType user "" None None))
        chain.

(** A swap from the custodial address when that address holds 5 wei, the
    sequencer being at 20. *)
Definition poor_custodial_swapin : St Chain :=
  start (intent "TOKEN" SwapinType user custodian None None)
        (mkChain 0 5 1000 100 7 20).

(** A SwapIn when the next three gateway calls fail. *)
Definition unreachable_swapin : St Chain :=
  start (intent "TOKEN" SwapinType user "" None None)
        (mkChain 3 (2 * 10 ^ 16) 1000 100 7 0).

(** A token SwapOut of 500 when the custodial address holds 1000 tokens. *)
Definition token_swapout : St Chain :=
  start (intent "TOKEN" SwapoutType user "" None None) chain.

(** A coin SwapOut for [user]. *)
Definition coin_swapout : St Chain :=
  start (intent "COIN" SwapoutType user "" (Some 7) None) chain.

End Bench.

(** * Properties *)

Section Properties.

Context {Net : Type} (pk : Packages) (b : Bridge Net).

Local Abbreviation St := (St Net).
Local Abbreviation M := (M Net).

(** ** Running a sequence *)

Lemma bind_Ok {A B} (m : M A) (f : A -> M B) s r s' :
  bind m f s = (Ok r, s') ->
  exists a s1, m s = (Ok a, s1) /\ f a s1 = (Ok r, s').
Proof.
  unfold bind. destruct (m s) as [[a | e |] s1]; intros H; try discriminate.
  eauto.
Qed.

Lemma bind_Fail {A B} (m : M A) (f : A -> M B) s e s' :
  bind m f s = (Fail e, s') ->
  m s = (Fail e, s') \/ exists a s1, m s = (Ok a, s1) /\ f a s1 = (Fail e, s').
Proof.
  unfold bind. destruct (m s) as [[a | e0 |] s1]; intros H; try discriminate.
  - right. eauto.
  - left. injection H as -> ->. reflexivity.
Qed.

Lemma bind_run {A B} (m : M A) (f : A -> M B) s a s1 :
  m s = (Ok a, s1) -> bind m f s = f a s1.
Proof. unfold bind. intros ->. reflexivity. Qed.

(** ** The retry loop *)

(** The loop neither reads nor writes the intent. *)
Lemma retryRPC_args n c call : forall err (s : St) a,
  retryRPC n c call err (mkSt a (net s) (trace s)) =
  (fst (retryRPC n c call err s),
   mkSt a (net (snd (retryRPC n c call err s))) (trace (snd (retryRPC n c call err s)))).
Proof.
  induction n as [| n IH]; intros err s a.
  - destruct err; reflexivity.
  - cbn [retryRPC]. unfold attempt. cbn [net trace args].
    destruct (call (net s)) as [[e | v] n1].
    + rewrite <- (IH (Some (ErrRPC e))
                     (emit (EvSleep retryRPCInterval)
                           (mkSt (args s) n1 (trace s ++ [EvCall c]))) a).
      reflexivity.
    + reflexivity.
Qed.

Lemma retryRPC_keeps_args n c call : forall err (s : St),
  args (snd (retryRPC n c call err s)) = args s.
Proof.
  induction n as [| n IH]; intros err s.
  - destruct err; reflexivity.
  - cbn [retryRPC]. unfold attempt.
    destruct (call (net s)) as [[e | v] n1]; [| reflexivity].
    rewrite IH. reflexivity.
Qed.

(** It never panics, and it has a value whenever it has run an attempt. *)
Lemma retryRPC_outcome n c call : forall err (s : St),
  match fst (retryRPC n c call err s) with
  | Ok (Some _) => True
  | Ok None => n = O /\ err = None
  | Fail _ => True
  | Panic => False
  end.
Proof.
  induction n as [| n IH]; intros err s.
  - destruct err; cbn; auto.
  - cbn [retryRPC]. unfold attempt.
    destruct (call (net s)) as [[e | v] n1]; [| exact I].
    specialize (IH (Some (ErrRPC e))
                   (emit (EvSleep retryRPCInterval)
                         (mkSt (args s) n1 (trace s ++ [EvCall c])))).
    destruct (fst (retryRPC n c call (Some (ErrRPC e)) _)) as [[v |] | e0 |]; auto.
    destruct IH as [_ IH]. discriminate.
Qed.

(** It only adds attempts and sleeps to the trace. *)
Lemma retryRPC_trace n c call : forall err (s : St),
  exists evs,
    trace (snd (retryRPC n c call err s)) = trace s ++ evs /\
    forallb (fun ev => negb (is_adjust ev)) evs = true.
Proof.
  induction n as [| n IH]; intros err s.
  - exists []. destruct err; cbn; rewrite app_nil_r; auto.
  - cbn [retryRPC]. unfold attempt.
    destruct (call (net s)) as [[e | v] n1].
    + destruct (IH (Some (ErrRPC e))
                   (emit (EvSleep retryRPCInterval)
                         (mkSt (args s) n1 (trace s ++ [EvCall c]))))
        as (evs & -> & Hevs).
      exists (EvCall c :: EvSleep retryRPCInterval :: evs). split.
      * cbn. rewrite <- !app_assoc. reflexivity.
      * cbn. exact Hevs.
    + exists [EvCall c]. auto.
Qed.

(** With three iterations the loop follows the retry policy. *)
Lemma retryRPC_policy c (call : Net -> (RpcError + Z) * Net) :
  retry_policy (retryRPC retryRPCCount c call None) c call (fun v => ret (Some v)).
Proof.
  intros s. cbv zeta. unfold ret, retryRPCCount. cbn [retryRPC]. unfold attempt, emit.
  cbn [args net trace failed_attempts app].
  destruct (call (net s)) as [[e1 | v1] n1]; cbn [args net trace]; [| reflexivity].
  destruct (call n1) as [[e2 | v2] n2]; cbn [args net trace];
    [| rewrite <- !app_assoc; reflexivity].
  destruct (call n2) as [[e3 | v3] n3]; cbn [args net trace];
    rewrite <- !app_assoc; reflexivity.
Qed.

Lemma retry_policy_bind {A B} (op : M A) c (call : Net -> (RpcError + Z) * Net) (k : Z -> M A) (f : A -> M B) :
  retry_policy op c call k ->
  retry_policy (bind op f) c call (fun v => bind (k v) f).
Proof.
  intros H s. specialize (H s). cbv zeta in *.
  destruct (call (net s)) as [[e1 | v1] n1].
  2: { unfold bind at 1. rewrite H. reflexivity. }
  destruct (call n1) as [[e2 | v2] n2].
  2: { unfold bind at 1. rewrite H. reflexivity. }
  destruct (call n2) as [[e3 | v3] n3]; unfold bind at 1; rewrite H; reflexivity.
Qed.

Lemma retry_policy_ext {A} (op : M A) c (call : Net -> (RpcError + Z) * Net) (k k' : Z -> M A) :
  (forall v s, k v s = k' v s) ->
  retry_policy op c call k -> retry_policy op c call k'.
Proof.
  intros E H s. specialize (H s). cbv zeta in *.
  destruct (call (net s)) as [[e1 | v1] n1]; [| rewrite <- E; exact H].
  destruct (call n1) as [[e2 | v2] n2]; [| rewrite <- E; exact H].
  destruct (call n2) as [[e3 | v3] n3]; [exact H | rewrite <- E; exact H].
Qed.

(** ** The retrying accessors *)

(** C9: each retried gateway operation (coin balance, token balance in
    the accessor and in the token-balance check, suggested gas price,
    pending nonce) stops at the first attempt that succeeds and goes on
    with its answer, making no further attempt; when three attempts in a
    row fail it stops there, having slept one second after each, and
    returns the error of the third attempt as the gateway gave it. *)
Theorem retried_operations_follow_policy :
  (forall account,
      retry_policy (getBalance b account)
                   (RpcGetBalance account) (GetBalance b account)
                   (fun v => ret (Some v))) /\
  (forall erc20Addr account,
      retry_policy (getErc20Balance b erc20Addr account)
                   (RpcGetErc20Balance erc20Addr account)
                   (GetErc20Balance b erc20Addr account)
                   (fun v => ret (Some v))) /\
  retry_policy (getGasPrice b) RpcSuggestPrice (SuggestPrice b)
               (fun v => ret (Some v)) /\
  (forall pairID from swapType,
      retry_policy (getAccountNonce b pairID from swapType)
                   (RpcGetPoolNonce from "pending") (GetPoolNonce b from "pending")
                   (fun v => if custodial_swap b pairID from swapType
                             then adjustNonce b pairID v
                             else ret v)) /\
  (forall token from value,
      retry_policy (checkTokenBalance b token from value)
                   (RpcGetErc20Balance token from) (GetErc20Balance b token from)
                   (fun v => if v <? value
                             then fail (ErrNotEnoughTokenBalance v value)
                             else ret tt)) /\
  (forall c,
      failed_attempts 3 c =
      [EvCall c; EvSleep 1000000000;
       EvCall c; EvSleep 1000000000;
       EvCall c; EvSleep 1000000000]).
Proof.
  repeat split; intros; try apply retryRPC_policy.
  - unfold getAccountNonce, fetchPoolNonce.
    eapply retry_policy_ext; [| apply retry_policy_bind, retryRPC_policy].
    intros v s. unfold bind, ret, custodial_swap. cbn.
    destruct (SwapType_eqb swapType NoSwapType); cbn; [reflexivity |].
    destruct (GetTokenConfig b pairID) as [cfg |]; [| reflexivity].
    destruct (String.eqb from (DcrmAddress cfg)); reflexivity.
  - unfold checkTokenBalance.
    eapply retry_policy_ext; [| apply retry_policy_bind, retryRPC_policy].
    intros v s. reflexivity.
Qed.

Lemma sequencer_calls_app tr evs :
  forallb (fun ev => negb (is_adjust ev)) evs = true ->
  sequencer_calls (tr ++ evs) = sequencer_calls tr.
Proof.
  intros H. unfold sequencer_calls. rewrite filter_app, length_app.
  replace (filter is_adjust evs) with (@nil Event); [cbn; lia |].
  induction evs as [| ev evs IH]; [reflexivity |].
  cbn in H. apply andb_true_iff in H as [Hev Hevs].
  cbn. destruct (is_adjust ev); [discriminate | auto].
Qed.

(** ** Nonce resolution *)

(** C8, as the code has it: once the pending nonce of the sender is
    fetched, a swap build whose sender is the custodial address of its
    pair hands that nonce to the sequencer, once, and returns what the
    sequencer answers; every other build (another sender, an unknown pair,
    or no swap direction) returns the fetched nonce as it is and never
    calls the sequencer. *)
Theorem nonce_resolution pairID from swapType (s s1 : St) v :
  fetchPoolNonce b from s = (Ok (Some v), s1) ->
  if custodial_swap b pairID from swapType then
    getAccountNonce b pairID from swapType s =
      (Ok (fst (AdjustNonce b pairID v (net s1))),
       mkSt (args s1) (snd (AdjustNonce b pairID v (net s1)))
            (trace s1 ++ [EvAdjustNonce pairID v])) /\
    sequencer_calls (trace s1 ++ [EvAdjustNonce pairID v]) = S (sequencer_calls (trace s))
  else
    getAccountNonce b pairID from swapType s = (Ok v, s1) /\
    sequencer_calls (trace s1) = sequencer_calls (trace s).
Proof.
  intros Hfetch.
  assert (Htr : sequencer_calls (trace s1) = sequencer_calls (trace s)).
  { unfold fetchPoolNonce in Hfetch.
    destruct (retryRPC_trace retryRPCCount (RpcGetPoolNonce from "pending")
                             (GetPoolNonce b from "pending") None s) as (evs & Hevs & Hno).
    rewrite Hfetch in Hevs. cbn in Hevs. rewrite Hevs.
    apply sequencer_calls_app, Hno. }
  unfold getAccountNonce. rewrite (bind_run _ _ _ _ _ Hfetch).
  unfold custodial_swap.
  destruct (SwapType_eqb swapType NoSwapType); cbn [negb andb]; [auto |].
  destruct (GetTokenConfig b pairID) as [cfg |]; [| auto].
  destruct (String.eqb from (DcrmAddress cfg)); [| auto].
  split.
  - unfold adjustNonce. destruct (AdjustNonce b pairID v (net s1)); reflexivity.
  - unfold sequencer_calls in *. rewrite filter_app, length_app, Htr. cbn. lia.
Qed.

(** ** Intents the builder refuses at once *)

(** C5: a build whose intent carries a raw payload together with a swap
    direction fails with the error "forbid build raw swap tx with input
    data", a validation error, and leaves the intent, the chain and the
    trace as they were. *)
Theorem raw_payload_with_direction_rejected (s : St) input :
  Input (args s) = Some input ->
  SwapType (args s) <> NoSwapType ->
  BuildRawTransaction pk b s = (Fail ErrForbidRawSwapTxWithInput, s) /\
  error_kind ErrForbidRawSwapTxWithInput = ValidationError.
Proof.
  intros Hin Hty. split; [| reflexivity].
  unfold BuildRawTransaction, bind, getArgs. rewrite Hin.
  destruct (SwapType (args s)); [congruence | reflexivity | reflexivity].
Qed.

(** C2, as the code has it: a SwapIn asked of the origin endpoint, or a
    SwapOut asked of the other one, always fails, with no gateway call and
    no change to the chain.  With a raw payload the error is the
    validation error of C5 and with an unknown pair it is the unknown-pair
    error, the intent untouched in both cases; otherwise it is the
    wrong-endpoint error, and the intent is untouched except that an empty
    sender has been replaced by the custodial address of the pair. *)
Theorem wrong_endpoint_rejected (s : St) :
  wrong_endpoint b (SwapType (args s)) ->
  exists e a',
    BuildRawTransaction pk b s = (Fail e, mkSt a' (net s) (trace s)) /\
    match Input (args s), GetTokenConfig b (PairID (args s)) with
    | Some _, _ =>
        e = ErrForbidRawSwapTxWithInput /\ a' = args s
    | None, None =>
        e = ErrUnknownPairID /\ a' = args s
    | None, Some tokenCfg =>
        e = ErrBuildSwapTxInWrongEndpoint /\
        error_kind e = DirectionError /\
        a' = default_from tokenCfg (args s)
    end.
Proof.
  intros Hwrong. destruct s as [a n tr]. cbn [args] in Hwrong.
  unfold BuildRawTransaction, bind, getArgs, default_from. cbn [args net trace].
  destruct (Input a) as [input |].
  - exists ErrForbidRawSwapTxWithInput, a.
    destruct Hwrong as [[Hty _] | [Hty _]]; rewrite Hty; auto.
  - destruct (GetTokenConfig b (PairID a)) as [cfg |].
    + exists ErrBuildSwapTxInWrongEndpoint.
      destruct Hwrong as [[Hty Hsrc] | [Hty Hsrc]]; rewrite Hty, Hsrc; cbn;
        destruct (String.eqb (From a) ""); cbn; eauto.
    + exists ErrUnknownPairID, a.
      destruct Hwrong as [[Hty _] | [Hty _]]; rewrite Hty; auto.
Qed.

(** ** What a step may change in the intent *)

Section Keeps.

Context (R : BuildTxArgs -> BuildTxArgs -> Prop) {R_pre : PreOrder R}.

Let R_refl : forall a, R a a := fun a => reflexivity a.
Let R_trans : forall a1 a2 a3, R a1 a2 -> R a2 a3 -> R a1 a3 :=
  fun a1 a2 a3 H1 H2 => transitivity H1 H2.

Lemma keeps_ret {A} (x : A) : keeps R (ret (Net := Net) x).
Proof. intros s. apply R_refl. Qed.

Lemma keeps_fail {A} e : keeps R (fail (Net := Net) (A := A) e).
Proof. intros s. apply R_refl. Qed.

Lemma keeps_panic {A} : keeps R (panic (Net := Net) (A := A)).
Proof. intros s. apply R_refl. Qed.

Lemma keeps_getArgs : keeps R (getArgs (Net := Net)).
Proof. intros s. apply R_refl. Qed.

Lemma keeps_deref {A} (p : option A) : keeps R (deref (Net := Net) p).
Proof. destruct p; [apply keeps_ret | apply keeps_panic]. Qed.

Lemma keeps_modifyArgs f : (forall a, R a (f a)) -> keeps R (modifyArgs (Net := Net) f).
Proof. intros H s. apply H. Qed.

Lemma keeps_bind {A B} (m : M A) (f : A -> M B) :
  keeps R m -> (forall a, keeps R (f a)) -> keeps R (bind m f).
Proof.
  intros Hm Hf s. specialize (Hm s). unfold bind.
  destruct (m s) as [[a | e |] s1]; cbn [snd] in *; try exact Hm.
  eapply R_trans; [exact Hm | apply Hf].
Qed.

Lemma keeps_retryRPC n c (call : Net -> (RpcError + Z) * Net) err :
  keeps R (retryRPC n c call err).
Proof. intros s. rewrite retryRPC_keeps_args. apply R_refl. Qed.

Lemma keeps_adjustNonce pairID nonce : keeps R (adjustNonce b pairID nonce).
Proof.
  intros s. unfold adjustNonce.
  destruct (AdjustNonce b pairID nonce (net s)). apply R_refl.
Qed.

Lemma keeps_getAccountNonce pairID from swapType :
  keeps R (getAccountNonce b pairID from swapType).
Proof.
  unfold getAccountNonce, fetchPoolNonce.
  apply keeps_bind; [apply keeps_retryRPC | intros r].
  destruct (negb _); [| apply keeps_ret].
  destruct (GetTokenConfig b pairID); [| apply keeps_ret].
  destruct (String.eqb _ _); [apply keeps_adjustNonce | apply keeps_ret].
Qed.

Lemma keeps_checkTokenBalance token from value :
  keeps R (checkTokenBalance b token from value).
Proof.
  unfold checkTokenBalance.
  apply keeps_bind; [apply keeps_retryRPC | intros r].
  apply keeps_bind; [apply keeps_deref | intros bal].
  destruct (bal <? value); [apply keeps_fail | apply keeps_ret].
Qed.

Lemma keeps_checkCoinBalance from value gasFee :
  keeps R (checkCoinBalance b from value gasFee).
Proof.
  intros s. unfold checkCoinBalance, getBalance.
  pose proof (retryRPC_keeps_args retryRPCCount (RpcGetBalance from)
                                  (GetBalance b from) None s) as H.
  destruct (retryRPC _ _ _ _ s) as [[[bal |] | e |] s1]; cbn [snd] in *;
    try (rewrite H; apply R_refl).
  destruct (bal <? _); cbn [snd]; rewrite H; apply R_refl.
Qed.

Lemma keeps_getExtra : keeps R (getExtra (Net := Net)).
Proof.
  unfold getExtra.
  apply keeps_bind; [apply keeps_getArgs | intros a].
  apply keeps_bind; [apply keeps_deref | intros ex].
  apply keeps_deref.
Qed.

Lemma keeps_modifyExtra f :
  (forall a e, Extra a = Some (mkAllExtras (Some e)) ->
               R a (set_Extra (Some (mkAllExtras (Some (f e)))) a)) ->
  keeps R (modifyExtra (Net := Net) f).
Proof.
  intros H s. unfold modifyExtra, getExtra, bind, getArgs, deref, ret, panic, modifyArgs.
  destruct (Extra (args s)) as [[[e |]] |] eqn:E; cbn; auto.
Qed.

End Keeps.

#[local] Instance only_extra_pre : PreOrder only_extra.
Proof.
  split.
  - intros a. exists (Extra a). destruct a; reflexivity.
  - intros a1 a2 a3 [ex1 ->] [ex2 ->]. exists ex2. reflexivity.
Qed.

#[local] Instance same_gas_price_pre : PreOrder same_gas_price.
Proof.
  split.
  - intros a e He. eauto.
  - intros a1 a2 a3 H12 H23 e He.
    destruct (H12 e He) as (e2 & He2 & Hp2).
    destruct (H23 e2 He2) as (e3 & He3 & Hp3).
    exists e3. split; [exact He3 | congruence].
Qed.

Ltac keeps_step :=
  first
    [ apply keeps_ret | apply keeps_fail | apply keeps_panic | apply keeps_getArgs
    | apply keeps_deref | apply keeps_getExtra | apply keeps_retryRPC
    | apply keeps_getAccountNonce | apply keeps_checkTokenBalance
    | apply keeps_checkCoinBalance
    | apply keeps_modifyExtra; [| intros ? ? ?]
    | apply keeps_bind; [| | intros ?]
    | apply keeps_modifyArgs; intros ?
    | match goal with
      | |- PreOrder _ => typeclasses eauto
      | |- keeps _ (match ?x with _ => _ end) => destruct x
      | |- keeps _ (if ?x then _ else _) => destruct x
      end ].

Ltac solve_keeps := repeat keeps_step.

(** ** Stepping through a sequence *)

Lemma bind_getArgs {B} (k : BuildTxArgs -> M B) (s : St) :
  bind getArgs k s = k (args s) s.
Proof. reflexivity. Qed.

Lemma bind_ret {A B} (x : A) (k : A -> M B) (s : St) : bind (ret x) k s = k x s.
Proof. reflexivity. Qed.

Lemma bind_fail {A B} e (k : A -> M B) (s : St) : bind (fail e) k s = (Fail e, s).
Proof. reflexivity. Qed.

Lemma bind_modifyArgs {B} f (k : unit -> M B) (s : St) :
  bind (modifyArgs f) k s = k tt (mkSt (f (args s)) (net s) (trace s)).
Proof. reflexivity. Qed.

Lemma bind_run_Fail {A B} (m : M A) (f : A -> M B) (s s1 : St) e :
  m s = (Fail e, s1) -> bind m f s = (Fail e, s1).
Proof. unfold bind. intros ->. reflexivity. Qed.

Lemma bind_run_Panic {A B} (m : M A) (f : A -> M B) (s s1 : St) :
  m s = (Panic, s1) -> bind m f s = (Panic, s1).
Proof. unfold bind. intros ->. reflexivity. Qed.

Lemma bind_assoc {A B C} (m : M A) (f : A -> M B) (g : B -> M C) (s : St) :
  bind (bind m f) g s = bind m (fun x => bind (f x) g) s.
Proof. unfold bind. destruct (m s) as [[a | e |] s1]; reflexivity. Qed.

Lemma getExtra_Ok (s s' : St) e :
  getExtra s = (Ok e, s') -> s' = s /\ Extra (args s) = Some (mkAllExtras (Some e)).
Proof.
  unfold getExtra, bind, getArgs, deref, ret, panic.
  destruct (Extra (args s)) as [[[e0 |]] |]; intros H; inversion H; auto.
Qed.

Lemma getExtra_run (s : St) e :
  Extra (args s) = Some (mkAllExtras (Some e)) -> getExtra s = (Ok e, s).
Proof.
  intros H. unfold getExtra, bind, getArgs, deref, ret. rewrite H. reflexivity.
Qed.

Lemma modifyExtra_run f (s : St) e :
  Extra (args s) = Some (mkAllExtras (Some e)) ->
  modifyExtra f s =
  (Ok tt, mkSt (set_Extra (Some (mkAllExtras (Some (f e)))) (args s)) (net s) (trace s)).
Proof.
  intros H. unfold modifyExtra. rewrite (bind_run _ _ _ _ _ (getExtra_run s e H)).
  reflexivity.
Qed.

(** ** Parameter resolution *)

(** [setDefaults] touches [Value], which it makes non-nil, and [Extra]. *)
Lemma setDefaults_args (s : St) :
  only_extra (set_Value (Some (value_or_zero (Value (args s)))) (args s))
             (args (snd (setDefaults b s))).
Proof.
  unfold setDefaults. rewrite bind_getArgs.
  destruct (Value (args s)) as [v |] eqn:EV.
  - rewrite bind_ret.
    replace (set_Value (Some (value_or_zero (Some v))) (args s)) with (args s)
      by (destruct (args s); unfold set_Value; cbn in *; subst; reflexivity).
    match goal with
    | |- only_extra _ (args (snd (?m s))) =>
        assert (Hk : keeps only_extra m)
    end.
    { solve_keeps; eexists; reflexivity. }
    apply Hk.
  - rewrite bind_modifyArgs. cbn [value_or_zero].
    match goal with
    | |- only_extra _ (args (snd (?m ?s0))) =>
        assert (Hk : keeps only_extra m)
    end.
    { solve_keeps; eexists; reflexivity. }
    apply (Hk (mkSt (set_Value (Some 0) (args s)) (net s) (trace s))).
Qed.

(** What it returns is what it leaves in [args.Extra.EthExtra]. *)
Lemma setDefaults_returns_extra (s s' : St) extra :
  setDefaults b s = (Ok extra, s') ->
  Extra (args s') = Some (mkAllExtras (Some extra)).
Proof.
  unfold setDefaults. intros H.
  do 9 (apply bind_Ok in H as (? & ? & _ & H)).
  apply getExtra_Ok in H as [-> H]. exact H.
Qed.

(** ** The coin-balance check *)

Lemma counted_spec (x : option Z) (acc : Z) :
  match x with
  | Some v => if v >? 0 then acc + v else acc
  | None => acc
  end = acc + counted x.
Proof.
  destruct x as [v |]; cbn [counted]; [| lia].
  destruct (Z.gtb_spec v 0); lia.
Qed.

Lemma checkCoinBalance_run from value gasFee (s s1 s0 : St) bal :
  getBalance b from s = (Ok (Some bal), s1) ->
  net s0 = net s -> trace s0 = trace s ->
  checkCoinBalance b from value gasFee s0 =
  (if bal <? counted value + counted gasFee
   then Fail (ErrNotEnoughCoinBalance bal value gasFee)
   else Ok tt,
   mkSt (args s0) (net s1) (trace s1)).
Proof.
  intros H Hnet Htr. destruct s0 as [a0 n0 t0]. cbn [args net trace] in *. subst n0 t0.
  unfold checkCoinBalance, getBalance in *.
  rewrite retryRPC_args, H. cbn [fst snd]. cbv zeta.
  rewrite (counted_spec gasFee), (counted_spec value). cbn [Z.add].
  destruct (bal <? counted value + counted gasFee); reflexivity.
Qed.

(** [buildTx], once the parameters are resolved and the balance fetched. *)
Lemma buildTx_run extra input (s s1 : St) nonce gasLimit gp bal :
  Nonce extra = Some nonce ->
  Gas extra = Some gasLimit ->
  GasPrice extra = Some gp ->
  (SwapType (args s) = SwapoutType -> GetTokenConfig b (PairID (args s)) <> None) ->
  getBalance b (From (args s)) s = (Ok (Some bal), s1) ->
  let gasFee :=
    if SwapType_eqb (SwapType (args s)) NoSwapType then gp * gasLimit else defReserveGasFee in
  buildTx pk b extra input s =
  (if bal <? counted (build_value pk b (args s)) + counted (Some gasFee)
   then Fail (ErrNotEnoughCoinBalance bal (build_value pk b (args s)) (Some gasFee))
   else Ok (NewTransaction nonce (HexToAddress pk (To (args s)))
                           (build_value pk b (args s)) gasLimit (Some gp) input),
   mkSt (stamp_identifier pk (args s)) (net s1) (trace s1)).
Proof.
  intros Hn Hg Hp Hcfg Hbal gasFee. subst gasFee.
  unfold buildTx. rewrite bind_getArgs, Hn, Hg, Hp. cbn [deref]. rewrite !bind_ret.
  unfold build_value, stamp_identifier.
  destruct (SwapType (args s)) eqn:Ety; cbn [SwapType_eqb negb].
  - rewrite !bind_ret, bind_assoc, !bind_ret.
    unfold bind at 1.
    rewrite (checkCoinBalance_run _ _ _ s s1 s bal Hbal eq_refl eq_refl).
    destruct (bal <? _); reflexivity.
  - rewrite bind_ret, bind_modifyArgs, bind_ret.
    unfold bind at 1.
    erewrite checkCoinBalance_run; [| exact Hbal | reflexivity | reflexivity].
    destruct (bal <? _); reflexivity.
  - destruct (GetTokenConfig b (PairID (args s))) as [cfg |]; [| now destruct Hcfg].
    destruct (IsErc20 cfg); cbn [negb];
      rewrite bind_ret, bind_modifyArgs, bind_ret;
      unfold bind at 1;
      (erewrite checkCoinBalance_run; [| exact Hbal | reflexivity | reflexivity]);
      destruct (bal <? _); reflexivity.
Qed.

(** ** The branches of the build *)

#[local] Instance same_leg_pre : PreOrder same_leg.
Proof.
  split.
  - intros a. split; reflexivity.
  - intros a1 a2 a3 [H1 H2] [H3 H4]. split; congruence.
Qed.

Lemma default_from_fields cfg a :
  PairID (default_from cfg a) = PairID a /\
  SwapID (default_from cfg a) = SwapID a /\
  SwapType (default_from cfg a) = SwapType a /\
  Bind (default_from cfg a) = Bind a /\
  OriginValue (default_from cfg a) = OriginValue a /\
  To (default_from cfg a) = To a /\
  Input (default_from cfg a) = Input a /\
  Value (default_from cfg a) = Value a.
Proof. unfold default_from. destruct (String.eqb (From a) ""); repeat split. Qed.

Lemma bind_default_from {B} cfg (k : unit -> M B) (s : St) :
  bind (if String.eqb (From (args s)) ""
        then modifyArgs (set_From (DcrmAddress cfg))
        else ret tt) k s =
  k tt (with_args (default_from cfg (args s)) s).
Proof.
  unfold default_from, with_args.
  destruct (String.eqb (From (args s)) ""); [reflexivity |].
  rewrite bind_ret. destruct s; reflexivity.
Qed.

Lemma buildSwapinTxInput_run (s : St) cfg :
  GetTokenConfig b (PairID (args s)) = Some cfg ->
  buildSwapinTxInput pk b s =
  if valid_bind pk (Bind (args s))
  then (Ok tt, with_args (set_To (ContractAddress cfg)
                            (set_Input (Some (swapin_payload pk (args s))) (args s))) s)
  else (Fail ErrSwapinInvalidAddress, s).
Proof.
  intros Hcfg. unfold buildSwapinTxInput, valid_bind. rewrite bind_getArgs.
  destruct ((HexToAddress pk (Bind (args s)) =? 0) || negb (IsHexAddress pk (Bind (args s))));
    cbn [negb]; [reflexivity |].
  rewrite bind_modifyArgs. cbn [args set_Input PairID]. rewrite Hcfg. reflexivity.
Qed.

Lemma buildErc20SwapoutTxInput_run (s : St) cfg :
  GetTokenConfig b (PairID (args s)) = Some cfg ->
  buildErc20SwapoutTxInput pk b s =
  if valid_bind pk (Bind (args s))
  then checkTokenBalance b (ContractAddress cfg) (DcrmAddress cfg)
         (CalcSwappedValue pk (PairID (args s)) (OriginValue (args s)) false)
         (with_args (set_To (ContractAddress cfg)
                       (set_Input (Some (transfer_payload pk (args s))) (args s))) s)
  else (Fail ErrSwapoutInvalidAddress, s).
Proof.
  intros Hcfg. unfold buildErc20SwapoutTxInput, valid_bind. rewrite bind_getArgs.
  destruct ((HexToAddress pk (Bind (args s)) =? 0) || negb (IsHexAddress pk (Bind (args s))));
    cbn [negb]; [reflexivity |].
  rewrite bind_modifyArgs. cbn [args set_Input PairID]. rewrite Hcfg.
  rewrite bind_modifyArgs. reflexivity.
Qed.

Lemma BuildRawTransaction_cases (s : St) :
  BuildRawTransaction pk b s = build_cases pk b s.
Proof.
  unfold BuildRawTransaction, build_cases, resolve_and_build.
  rewrite bind_getArgs. cbv zeta.
  destruct (Input (args s)) as [input |].
  { destruct (SwapType (args s)); reflexivity. }
  destruct (SwapType (args s)) eqn:Ety; cbn [SwapType_eqb negb].
  - rewrite !bind_ret. reflexivity.
  - destruct (GetTokenConfig b (PairID (args s))) as [cfg |] eqn:Ecfg; [| reflexivity].
    rewrite bind_assoc, bind_default_from, bind_ret.
    destruct (default_from_fields cfg (args s)) as (HP & HS & _ & HB & HO & _).
    destruct (IsSrc b); [reflexivity |].
    rewrite !bind_assoc. unfold bind at 1.
    rewrite (buildSwapinTxInput_run _ cfg) by (cbn [with_args args]; rewrite HP; exact Ecfg).
    cbn [with_args args net trace]. rewrite HB.
    destruct (valid_bind pk (Bind (args s))); [| reflexivity].
    rewrite bind_assoc, bind_getArgs.
    cbn [with_args args net trace set_To set_Input Input deref]. rewrite bind_ret.
    unfold swapin_payload. rewrite HP, HS, HB, HO. reflexivity.
  - destruct (GetTokenConfig b (PairID (args s))) as [cfg |] eqn:Ecfg; [| reflexivity].
    rewrite bind_assoc, bind_default_from, bind_ret.
    destruct (default_from_fields cfg (args s)) as (HP & HS & _ & HB & HO & _).
    destruct (IsSrc b); cbn [negb]; [| reflexivity].
    cbn [deref]. rewrite bind_assoc, bind_ret.
    destruct (IsErc20 cfg).
    + rewrite !bind_assoc. unfold bind at 1.
      rewrite (buildErc20SwapoutTxInput_run _ cfg) by (cbn [with_args args]; rewrite HP; exact Ecfg).
      cbn [with_args args net trace]. rewrite HB.
      destruct (valid_bind pk (Bind (args s))); [| reflexivity].
      unfold transfer_payload. rewrite HP, HB, HO.
      unfold with_args. cbn [net trace].
      pose proof (keeps_checkTokenBalance same_leg (ContractAddress cfg) (DcrmAddress cfg)
                    (CalcSwappedValue pk (PairID (args s)) (OriginValue (args s)) false)) as Hk.
      match goal with
      | |- context [checkTokenBalance ?bb ?t ?f ?v ?s0] =>
          specialize (Hk s0);
          destruct (checkTokenBalance bb t f v s0) as [[[] | e |] s1] eqn:E
      end.
      * rewrite (bind_run _ _ _ _ _ E), bind_assoc, bind_getArgs.
        destruct Hk as [_ Hin]. unfold set_To, set_Input in Hin. cbn [snd args Input] in Hin.
        rewrite Hin. cbn [deref]. rewrite bind_ret. reflexivity.
      * rewrite (bind_run_Fail _ _ _ _ _ E). reflexivity.
      * rewrite (bind_run_Panic _ _ _ _ E). reflexivity.
    + rewrite bind_assoc, bind_modifyArgs, bind_ret.
      unfold with_args. cbn [args net trace]. reflexivity.
Qed.

(** ** After the leg *)

Lemma buildTx_Ok extra input (s s' : St) tx :
  buildTx pk b extra input s = (Ok tx, s') ->
  tx_data tx = input /\
  tx_to tx = HexToAddress pk (To (args s)) /\
  tx_value tx = build_value pk b (args s).
Proof.
  unfold buildTx. rewrite bind_getArgs.
  destruct (Nonce extra) as [nonce |]; [| discriminate].
  destruct (Gas extra) as [gasLimit |]; [| discriminate].
  cbn [deref]. rewrite !bind_ret. intros H.
  apply bind_Ok in H as (value & s2 & Hv & H).
  assert (value = build_value pk b (args s)) as ->.
  { unfold build_value.
    destruct (SwapType (args s)); try (inversion Hv; reflexivity).
    destruct (GetTokenConfig b (PairID (args s))) as [cfg |]; [| discriminate].
    destruct (IsErc20 cfg); inversion Hv; reflexivity. }
  do 3 (apply bind_Ok in H as (? & ? & _ & H)).
  inversion H. auto.
Qed.

Lemma keeps_resolve_and_build input : keeps same_leg (resolve_and_build pk b input).
Proof.
  unfold resolve_and_build, setDefaults, buildTx, getGasPrice.
  solve_keeps; split; reflexivity.
Qed.

Lemma build_value_only_extra a a' :
  only_extra a a' -> build_value pk b a' = build_value pk b a.
Proof. intros [ex ->]. reflexivity. Qed.

Lemma resolve_and_build_Ok input (s s' : St) tx :
  resolve_and_build pk b input s = (Ok tx, s') ->
  tx_data tx = input /\
  tx_to tx = HexToAddress pk (To (args s)) /\
  tx_value tx =
    build_value pk b (set_Value (Some (value_or_zero (Value (args s)))) (args s)).
Proof.
  unfold resolve_and_build. intros H.
  apply bind_Ok in H as (extra & s2 & Hd & H).
  apply buildTx_Ok in H as (Hdata & Hto & Hval).
  pose proof (setDefaults_args s) as Hargs. rewrite Hd in Hargs. cbn [snd] in Hargs.
  rewrite (build_value_only_extra _ _ Hargs) in Hval.
  destruct Hargs as [ex ->] in Hto. auto.
Qed.

Lemma retryRPC_state n c call err (s : St) :
  snd (retryRPC n c call err s) =
  with_args (args s) (snd (retryRPC n c call err s)).
Proof.
  unfold with_args. rewrite <- (retryRPC_keeps_args n c call err s).
  destruct (snd (retryRPC n c call err s)); reflexivity.
Qed.

(** ** The claims on whole builds *)

(** C7, as the code has it: with the balance of the sender fetched, the
    coin-balance check passes exactly when the balance is at least the
    value plus the fee, each counted only when it is non-nil and positive;
    when it fails, the error carries the balance, the value and the fee.
    [buildTx] makes that check with the value of the transaction and with
    a fee that is gas price times gas limit for a build without swap
    direction and the constant 10^16 for a swap, whatever the gas price
    and the gas limit.  Balance 100, value 30, fee 10 passes; balance 39,
    value 30, fee 10 fails, the amount required being 40. *)
Theorem coin_balance_requirement :
  (forall from value gasFee (s s1 : St) bal,
      getBalance b from s = (Ok (Some bal), s1) ->
      checkCoinBalance b from value gasFee s =
      (if bal <? counted value + counted gasFee
       then Fail (ErrNotEnoughCoinBalance bal value gasFee)
       else Ok tt, s1)) /\
  (forall extra input (s s1 : St) nonce gasLimit gp bal,
      Nonce extra = Some nonce ->
      Gas extra = Some gasLimit ->
      GasPrice extra = Some gp ->
      (SwapType (args s) = SwapoutType -> GetTokenConfig b (PairID (args s)) <> None) ->
      getBalance b (From (args s)) s = (Ok (Some bal), s1) ->
      let value := build_value pk b (args s) in
      let gasFee :=
        match SwapType (args s) with
        | NoSwapType => gp * gasLimit
        | _ => defReserveGasFee
        end in
      buildTx pk b extra input s =
      (if bal <? counted value + counted (Some gasFee)
       then Fail (ErrNotEnoughCoinBalance bal value (Some gasFee))
       else Ok (NewTransaction nonce (HexToAddress pk (To (args s))) value
                               gasLimit (Some gp) input),
       mkSt (stamp_identifier pk (args s)) (net s1) (trace s1))) /\
  defReserveGasFee = 10000000000000000 /\
  (forall v f, 0 <= v -> 0 <= f -> counted (Some v) + counted (Some f) = v + f) /\
  (forall from (s s1 : St),
      getBalance b from s = (Ok (Some 100), s1) ->
      checkCoinBalance b from (Some 30) (Some 10) s = (Ok tt, s1)) /\
  (forall from (s s1 : St),
      getBalance b from s = (Ok (Some 39), s1) ->
      checkCoinBalance b from (Some 30) (Some 10) s =
      (Fail (ErrNotEnoughCoinBalance 39 (Some 30) (Some 10)), s1) /\
      counted (Some 30) + counted (Some 10) = 40).
Proof.
  assert (Hcheck : forall from value gasFee (s s1 : St) bal,
             getBalance b from s = (Ok (Some bal), s1) ->
             checkCoinBalance b from value gasFee s =
             (if bal <? counted value + counted gasFee
              then Fail (ErrNotEnoughCoinBalance bal value gasFee)
              else Ok tt, s1)).
  { intros from value gasFee s s1 bal H.
    rewrite (checkCoinBalance_run _ _ _ s s1 s bal H eq_refl eq_refl).
    f_equal. unfold getBalance in H.
    pose proof (retryRPC_state retryRPCCount (RpcGetBalance from) (GetBalance b from) None s)
      as Hs1.
    rewrite H in Hs1. cbn [snd] in Hs1. symmetry. exact Hs1. }
  split; [exact Hcheck |].
  split.
  { intros extra input s s1 nonce gasLimit gp bal Hn Hg Hp Hcfg Hbal value gasFee.
    subst value gasFee.
    rewrite (buildTx_run extra input s s1 nonce gasLimit gp bal Hn Hg Hp Hcfg Hbal).
    destruct (SwapType (args s)); reflexivity. }
  split; [reflexivity |].
  split.
  { intros v f Hv Hf. cbn [counted]. lia. }
  split.
  - intros from s s1 H. rewrite (Hcheck _ _ _ _ _ _ H). reflexivity.
  - intros from s s1 H. rewrite (Hcheck _ _ _ _ _ _ H). split; reflexivity.
Qed.

(** C10: the value of the transaction a build produces.  A SwapOut on a
    pair that is not a token pair carries the converted origin value,
    whatever the intent gave as value; every other build carries the
    value of the intent, zero when it was nil. *)
Theorem transaction_value (s s' : St) tx :
  BuildRawTransaction pk b s = (Ok tx, s') ->
  match SwapType (args s) with
  | SwapoutType =>
      exists tokenCfg,
        GetTokenConfig b (PairID (args s)) = Some tokenCfg /\
        tx_value tx =
          if IsErc20 tokenCfg
          then Some (value_or_zero (Value (args s)))
          else Some (CalcSwappedValue pk (PairID (args s)) (OriginValue (args s)) false)
  | _ => tx_value tx = Some (value_or_zero (Value (args s)))
  end.
Proof.
  rewrite BuildRawTransaction_cases. unfold build_cases. cbv zeta.
  destruct (Input (args s)) as [input |].
  { destruct (SwapType (args s)) eqn:Ety; cbn [SwapType_eqb negb]; try discriminate.
    intros H. apply resolve_and_build_Ok in H as (_ & _ & H). rewrite H.
    unfold build_value. cbn [SwapType set_Value]. rewrite Ety. reflexivity. }
  destruct (SwapType (args s)) eqn:Ety.
  - intros H. apply resolve_and_build_Ok in H as (_ & _ & H). rewrite H.
    unfold build_value. cbn [SwapType set_Value]. rewrite Ety. reflexivity.
  - destruct (GetTokenConfig b (PairID (args s))) as [cfg |] eqn:Ecfg; [| discriminate].
    destruct (default_from_fields cfg (args s)) as (HP & _ & HT & _ & _ & _ & _ & HV).
    destruct (IsSrc b); [discriminate |].
    destruct (valid_bind pk (Bind (args s))); [| discriminate].
    intros H. apply resolve_and_build_Ok in H as (_ & _ & H). rewrite H.
    unfold build_value, with_args.
    cbn [args SwapType set_Value set_To set_Input Value]. rewrite HT, Ety, HV. reflexivity.
  - destruct (GetTokenConfig b (PairID (args s))) as [cfg |] eqn:Ecfg; [| discriminate].
    destruct (default_from_fields cfg (args s)) as (HP & _ & HT & _ & HO & _ & _ & HV).
    exists cfg. split; [reflexivity |].
    destruct (IsSrc b); cbn [negb] in H; [| discriminate].
    destruct (IsErc20 cfg) eqn:Eerc.
    + destruct (valid_bind pk (Bind (args s))); [| discriminate].
      apply bind_Ok in H as ([] & s1 & Hchk & H).
      apply resolve_and_build_Ok in H as (_ & _ & H). rewrite H.
      pose proof (keeps_checkTokenBalance eq (ContractAddress cfg) (DcrmAddress cfg)
                    (CalcSwappedValue pk (PairID (args s)) (OriginValue (args s)) false)) as Hk.
      match type of Hchk with
      | checkTokenBalance _ _ _ _ ?s0 = _ => specialize (Hk s0)
      end.
      rewrite Hchk in Hk. cbn [snd] in Hk. rewrite <- Hk.
      unfold build_value, with_args.
      cbn [args SwapType set_Value set_To set_Input Value PairID].
      rewrite HT, Ety, HP, Ecfg, Eerc, HV. reflexivity.
    + apply resolve_and_build_Ok in H as (_ & _ & H). rewrite H.
      unfold build_value, with_args.
      cbn [args SwapType set_Value set_To set_Input Value PairID OriginValue].
      rewrite HT, Ety, HP, Ecfg, Eerc, HO. reflexivity.
Qed.

(** C1: a SwapIn build without raw payload whose bind address is a hex
    address other than the zero address, when it succeeds, gives the
    transaction the packed call of the swapin function on the hash of the
    swap identifier, the bind address and the origin value converted into
    the destination, and sends it to the token contract of the pair; the
    intent holds the same payload and the contract address as recipient. *)
Theorem swapin_payload_and_recipient (s s' : St) tx :
  SwapType (args s) = SwapinType ->
  Input (args s) = None ->
  IsHexAddress pk (Bind (args s)) = true ->
  HexToAddress pk (Bind (args s)) <> 0 ->
  BuildRawTransaction pk b s = (Ok tx, s') ->
  let payload :=
    PackDataWithFuncHash pk (getSwapinFuncHash pk)
      [ArgHash (HexToHash pk (SwapID (args s)));
       ArgAddress (HexToAddress pk (Bind (args s)));
       ArgBigInt (CalcSwappedValue pk (PairID (args s)) (OriginValue (args s)) true)] in
  exists token,
    GetTokenConfig b (PairID (args s)) = Some token /\
    tx_data tx = payload /\
    tx_to tx = HexToAddress pk (ContractAddress token) /\
    Input (args s') = Some payload /\
    To (args s') = ContractAddress token.
Proof.
  intros Hty Hin Hhex Hnz H payload. subst payload.
  rewrite BuildRawTransaction_cases in H. unfold build_cases in H. cbv zeta in H.
  rewrite Hin, Hty in H.
  destruct (GetTokenConfig b (PairID (args s))) as [cfg |] eqn:Ecfg; [| discriminate].
  exists cfg. split; [reflexivity |].
  destruct (IsSrc b); [discriminate |].
  destruct (valid_bind pk (Bind (args s))); [| discriminate].
  pose proof (keeps_resolve_and_build (swapin_payload pk (args s))) as Hk.
  match type of H with
  | resolve_and_build _ _ _ ?s0 = _ => specialize (Hk s0)
  end.
  rewrite H in Hk. cbn [snd] in Hk. destruct Hk as [HTo HInput].
  apply resolve_and_build_Ok in H as (Hdata & Hto & _).
  unfold with_args in *. cbn [args To Input set_To set_Input] in *.
  auto.
Qed.

Lemma checkTokenBalance_run token from value (s s1 : St) bal a :
  getErc20Balance b token from s = (Ok (Some bal), s1) ->
  checkTokenBalance b token from value (with_args a s) =
  (if bal <? value then Fail (ErrNotEnoughTokenBalance bal value) else Ok tt,
   with_args a s1).
Proof.
  intros H. unfold checkTokenBalance, getErc20Balance, with_args in *.
  unfold bind. rewrite retryRPC_args, H. cbn [fst snd deref ret].
  destruct (bal <? value); reflexivity.
Qed.

(** C3, as the code has it: the legs write recipient and payload into the
    intent as soon as they are computed, so after a failed build the two
    fields are as they were only when the failure came before those
    writes (a raw payload with a swap direction, an unknown pair, the
    wrong endpoint, a bind address that is refused, or a build without
    swap direction); after any later failure they hold what the leg
    wrote.  A token SwapOut whose custodial token balance is too small
    fails with that error and leaves the intent with the transfer call as
    payload and the token contract as recipient. *)
Theorem failed_build_leaves_leg_fields :
  (forall (s s' : St) e,
      BuildRawTransaction pk b s = (Fail e, s') ->
      (To (args s'), Input (args s')) =
      match leg_fields pk b (args s) with
      | Some written => written
      | None => (To (args s), Input (args s))
      end) /\
  (forall (s s1 : St) token bal,
      SwapType (args s) = SwapoutType ->
      Input (args s) = None ->
      GetTokenConfig b (PairID (args s)) = Some token ->
      IsSrc b = true ->
      IsErc20 token = true ->
      valid_bind pk (Bind (args s)) = true ->
      getErc20Balance b (ContractAddress token) (DcrmAddress token) s = (Ok (Some bal), s1) ->
      let amount := CalcSwappedValue pk (PairID (args s)) (OriginValue (args s)) false in
      bal < amount ->
      exists a',
        BuildRawTransaction pk b s = (Fail (ErrNotEnoughTokenBalance bal amount), with_args a' s1) /\
        To a' = ContractAddress token /\
        Input a' = Some (transfer_payload pk (args s))).
Proof.
  split.
  - intros s s' e. rewrite BuildRawTransaction_cases. unfold build_cases, leg_fields. cbv zeta.
    assert (Hres : forall input (s0 : St),
               resolve_and_build pk b input s0 = (Fail e, s') ->
               (To (args s'), Input (args s')) = (To (args s0), Input (args s0))).
    { intros input s0 H. pose proof (keeps_resolve_and_build input s0) as Hk.
      rewrite H in Hk. cbn [snd] in Hk. destruct Hk as [-> ->]. reflexivity. }
    destruct (Input (args s)) as [input |] eqn:Ein.
    { destruct (SwapType (args s)); cbn [SwapType_eqb negb]; intros H;
        try (inversion H; subst; rewrite Ein; reflexivity).
      rewrite (Hres _ _ H), Ein. reflexivity. }
    destruct (SwapType (args s)) eqn:Ety.
    + intros H. rewrite (Hres _ _ H), Ein. reflexivity.
    + destruct (GetTokenConfig b (PairID (args s))) as [cfg |] eqn:Ecfg;
        [| intros H; inversion H; subst; rewrite Ein; reflexivity].
      destruct (default_from_fields cfg (args s)) as (_ & _ & _ & _ & _ & HTo & HIn & _).
      destruct (IsSrc b); cbn [negb andb].
      { intros H; inversion H; subst. unfold with_args. cbn [args].
        rewrite HTo, HIn, Ein. reflexivity. }
      destruct (valid_bind pk (Bind (args s))).
      * intros H. rewrite (Hres _ _ H). reflexivity.
      * intros H; inversion H; subst. unfold with_args. cbn [args].
        rewrite HTo, HIn, Ein. reflexivity.
    + destruct (GetTokenConfig b (PairID (args s))) as [cfg |] eqn:Ecfg;
        [| intros H; inversion H; subst; rewrite Ein; reflexivity].
      destruct (default_from_fields cfg (args s)) as (_ & _ & _ & _ & _ & HTo & HIn & _).
      destruct (IsSrc b); cbn [negb].
      2: { intros H; inversion H; subst. unfold with_args. cbn [args].
           rewrite HTo, HIn, Ein. reflexivity. }
      destruct (IsErc20 cfg).
      * destruct (valid_bind pk (Bind (args s))).
        2: { intros H; inversion H; subst. unfold with_args. cbn [args].
             rewrite HTo, HIn, Ein. reflexivity. }
        intros H.
        pose proof (keeps_checkTokenBalance same_leg (ContractAddress cfg) (DcrmAddress cfg)
                      (CalcSwappedValue pk (PairID (args s)) (OriginValue (args s)) false)) as Hk.
        apply bind_Fail in H as [H | (u & s2 & Hchk & H)].
        -- match type of H with
           | checkTokenBalance _ _ _ _ ?s0 = _ => specialize (Hk s0)
           end.
           rewrite H in Hk. cbn [snd] in Hk. destruct Hk as [-> ->]. reflexivity.
        -- match type of Hchk with
           | checkTokenBalance _ _ _ _ ?s0 = _ => specialize (Hk s0)
           end.
           rewrite Hchk in Hk. cbn [snd] in Hk. destruct Hk as [Hk1 Hk2].
           rewrite (Hres _ _ H), Hk1, Hk2. reflexivity.
      * intros H. rewrite (Hres _ _ H). unfold with_args. cbn [args To Input set_To].
        rewrite HIn, Ein. reflexivity.
  - intros s s1 token bal Hty Hin Hcfg Hsrc Herc Hvalid Hbal amount Hlt. subst amount.
    rewrite BuildRawTransaction_cases. unfold build_cases. cbv zeta.
    rewrite Hin, Hty, Hcfg, Hsrc, Herc, Hvalid. cbn [negb].
    eexists. split.
    + apply bind_run_Fail.
      rewrite (checkTokenBalance_run _ _ _ s s1 bal _ Hbal).
      apply Z.ltb_lt in Hlt. rewrite Hlt. reflexivity.
    + split; reflexivity.
Qed.

(** ** The bind address *)

(** Both contract legs refuse a bind address that is not a hex address
    or is the zero address, before they write anything. *)
Lemma contract_legs_validate_bind (s : St) tokenCfg :
  Input (args s) = None ->
  GetTokenConfig b (PairID (args s)) = Some tokenCfg ->
  valid_bind pk (Bind (args s)) = false ->
  (SwapType (args s) = SwapinType -> IsSrc b = false ->
   BuildRawTransaction pk b s =
   (Fail ErrSwapinInvalidAddress, with_args (default_from tokenCfg (args s)) s)) /\
  (SwapType (args s) = SwapoutType -> IsSrc b = true -> IsErc20 tokenCfg = true ->
   BuildRawTransaction pk b s =
   (Fail ErrSwapoutInvalidAddress, with_args (default_from tokenCfg (args s)) s)).
Proof.
  intros Hin Hcfg Hbad.
  split; intros; rewrite BuildRawTransaction_cases; unfold build_cases; cbv zeta;
    repeat match goal with H : _ = _ |- _ => rewrite H end; reflexivity.
Qed.

(** The coin leg of a SwapOut makes no such test: whatever the bind
    address is, it becomes the recipient and the build goes on. *)
Lemma coin_swapout_takes_any_bind (s : St) tokenCfg :
  Input (args s) = None ->
  SwapType (args s) = SwapoutType ->
  GetTokenConfig b (PairID (args s)) = Some tokenCfg ->
  IsSrc b = true ->
  IsErc20 tokenCfg = false ->
  BuildRawTransaction pk b s =
  resolve_and_build pk b
    (list_byte_of_string (String.append (UnlockMemoPrefix pk) (SwapID (args s))))
    (with_args (set_To (Bind (args s)) (default_from tokenCfg (args s))) s).
Proof.
  intros Hin Hty Hcfg Hsrc Herc.
  rewrite BuildRawTransaction_cases. unfold build_cases. cbv zeta.
  rewrite Hin, Hty, Hcfg, Hsrc, Herc. reflexivity.
Qed.

(** ** The gas price *)

Lemma getGasPrice_with_args (s s1 : St) r a :
  getGasPrice b s = (r, s1) ->
  getGasPrice b (with_args a s) = (r, with_args a s1).
Proof.
  unfold getGasPrice, with_args. intros H. rewrite retryRPC_args, H. reflexivity.
Qed.

(** The gas price [setDefaults] resolves for a swap, as the code computes it. *)
Lemma setDefaults_gas_price (s s1 s' : St) cfg p extra :
  gas_price_unset (args s) = true ->
  SwapType (args s) <> NoSwapType ->
  GetTokenConfig b (PairID (args s)) = Some cfg ->
  getGasPrice b s = (Ok (Some p), s1) ->
  setDefaults b s = (Ok extra, s') ->
  GasPrice extra =
  Some (if PlusGasPricePercentage cfg >? 0
        then big_Div (p * to_int64 (wrap_uint64 (100 + PlusGasPricePercentage cfg))) 100
        else p).
Proof.
  intros Hunset Hty Hcfg Hprice H.
  pose proof (setDefaults_returns_extra _ _ _ H) as Hfinal.
  unfold setDefaults in H. rewrite bind_getArgs in H.
  (* Value *)
  apply bind_Ok in H as (u1 & t1 & H1 & H).
  assert (Ht1 : exists a1, t1 = with_args a1 s /\ Extra a1 = Extra (args s)).
  { destruct (Value (args s)); injection H1 as _ <-.
    - exists (args s). split; [destruct s; reflexivity | reflexivity].
    - eexists. split; reflexivity. }
  destruct Ht1 as (a1 & -> & Ha1). clear H1.
  (* Extra *)
  apply bind_Ok in H as (u2 & t2 & H2 & H).
  assert (Ht2 : exists a2 e0, t2 = with_args a2 s /\
                              Extra a2 = Some (mkAllExtras (Some e0)) /\ GasPrice e0 = None).
  { unfold gas_price_unset in Hunset.
    destruct (Extra (args s)) as [[[e0 |]] |] eqn:Eex; injection H2 as _ <-.
    - exists a1, e0. destruct (GasPrice e0); [discriminate | auto].
    - eexists _, _. split; [reflexivity |]. split; reflexivity.
    - eexists _, _. split; [reflexivity |]. split; reflexivity. }
  destruct Ht2 as (a2 & e0 & -> & Ha2 & He0). clear H2.
  (* the gas price *)
  rewrite (bind_run _ _ _ _ _ (getExtra_run (with_args a2 s) e0 Ha2)) in H. rewrite He0 in H.
  apply bind_Ok in H as (u4 & t4 & H4 & H).
  assert (Ht4 : exists e4, Extra (args t4) = Some (mkAllExtras (Some e4)) /\
                           GasPrice e4 =
                           Some (if PlusGasPricePercentage cfg >? 0
                                 then big_Div (p * to_int64 (wrap_uint64
                                                 (100 + PlusGasPricePercentage cfg))) 100
                                 else p)).
  { rewrite (bind_run _ _ _ _ _ (getGasPrice_with_args s s1 _ a2 Hprice)) in H4.
    unfold bind at 1 in H4.
    rewrite (modifyExtra_run _ (with_args a2 s1) e0 Ha2) in H4.
    destruct (SwapType (args s)); [congruence | |]; cbn [SwapType_eqb negb] in H4;
      rewrite Hcfg in H4;
      (destruct (PlusGasPricePercentage cfg >? 0);
       [ cbn [deref] in H4; rewrite bind_ret in H4;
         erewrite modifyExtra_run in H4 by reflexivity;
         inversion H4; subst; eexists; split; reflexivity
       | inversion H4; subst; eexists; split; reflexivity ]). }
  destruct Ht4 as (e4 & He4 & Hp4). clear H4.
  (* nonce and gas limit keep it *)
  match type of H with
  | ?m t4 = _ => assert (Hk : keeps same_gas_price m)
  end.
  { solve_keeps;
      match goal with
      | Hx : Extra _ = Some _ |- _ =>
          intros e1 He1; rewrite Hx in He1; inversion He1; subst;
          eexists; split; reflexivity
      end. }
  specialize (Hk t4). rewrite H in Hk. cbn [snd] in Hk.
  destruct (Hk e4 He4) as (e' & He' & Hpe').
  rewrite Hfinal in He'. inversion He'; subst. congruence.
Qed.

(** C6, as the code has it: for a swap build that leaves the gas price
    unset, with the suggested price fetched and a markup percentage whose
    sum with 100 fits a signed 64-bit integer, the resolved gas price is
    [suggested * (100 + markupPct) / 100], rounded down; 100 with markup
    10 gives 110 and 99 with markup 10 gives 108. *)
Theorem gas_price_markup (s s1 s' : St) tokenCfg suggested extra :
  gas_price_unset (args s) = true ->
  SwapType (args s) <> NoSwapType ->
  GetTokenConfig b (PairID (args s)) = Some tokenCfg ->
  getGasPrice b s = (Ok (Some suggested), s1) ->
  0 <= PlusGasPricePercentage tokenCfg ->
  100 + PlusGasPricePercentage tokenCfg <= 2 ^ 63 - 1 ->
  setDefaults b s = (Ok extra, s') ->
  let markupPct := PlusGasPricePercentage tokenCfg in
  GasPrice extra = Some (suggested * (100 + markupPct) / 100) /\
  Extra (args s') = Some (mkAllExtras (Some extra)) /\
  (suggested = 100 -> markupPct = 10 -> GasPrice extra = Some 110) /\
  (suggested = 99 -> markupPct = 10 -> GasPrice extra = Some 108).
Proof.
  intros Hunset Hty Hcfg Hprice Hlo Hhi H markupPct. subst markupPct.
  assert (Hgp : GasPrice extra =
                Some (suggested * (100 + PlusGasPricePercentage tokenCfg) / 100)).
  { rewrite (setDefaults_gas_price s s1 s' tokenCfg suggested extra Hunset Hty Hcfg Hprice H).
    f_equal. destruct (Z.gtb_spec (PlusGasPricePercentage tokenCfg) 0) as [Hpos | Hzero].
    - unfold wrap_uint64, to_int64, big_Div.
      rewrite Z.mod_small by lia.
      destruct (Z.ltb_spec (100 + PlusGasPricePercentage tokenCfg) (2 ^ 63)); [| lia].
      cbn [Z.sgn Z.abs]. lia.
    - replace (PlusGasPricePercentage tokenCfg) with 0 by lia.
      cbn [Z.add]. rewrite Z.div_mul by lia. reflexivity. }
  split; [exact Hgp |].
  split; [exact (setDefaults_returns_extra _ _ _ H) |].
  split; intros -> Hm; rewrite Hgp, Hm; reflexivity.
Qed.

(** * Further properties *)

(** ** Reasoning with preconditions and postconditions *)

Lemma triple_bind {A B} (P : St -> Prop) (m : M A) (R : A -> St -> Prop)
      (f : A -> M B) Q F :
  triple P m R F -> (forall a, triple (R a) (f a) Q F) -> triple P (bind m f) Q F.
Proof.
  intros Hm Hf s HP. specialize (Hm s HP). unfold bind.
  destruct (m s) as [[a | e |] s1]; [apply (Hf a s1 Hm) | exact Hm | exact Hm].
Qed.

Lemma triple_conseq {A} (P P' : St -> Prop) (m : M A) (Q Q' : A -> St -> Prop)
      (F F' : Error -> St -> Prop) :
  triple P m Q F ->
  (forall s, P' s -> P s) ->
  (forall a s, Q a s -> Q' a s) ->
  (forall e s, F e s -> F' e s) ->
  triple P' m Q' F'.
Proof.
  intros H HP HQ HF s Hs. specialize (H s (HP s Hs)).
  destruct (m s) as [[a | e |] s1]; auto.
Qed.

Lemma triple_ret {A} (P : St -> Prop) (x : A) (Q : A -> St -> Prop) F :
  (forall s, P s -> Q x s) -> triple P (ret x) Q F.
Proof. intros H s HP. apply H, HP. Qed.

Lemma triple_fail {A} (P : St -> Prop) e (Q : A -> St -> Prop) (F : Error -> St -> Prop) :
  (forall s, P s -> F e s) -> triple P (fail e) Q F.
Proof. intros H s HP. apply H, HP. Qed.

Lemma triple_getArgs (P : St -> Prop) (Q : BuildTxArgs -> St -> Prop) F :
  (forall s, P s -> Q (args s) s) -> triple P getArgs Q F.
Proof. intros H s HP. apply H, HP. Qed.

Lemma triple_modifyArgs f (P : St -> Prop) (Q : unit -> St -> Prop) F :
  (forall s, P s -> Q tt (with_args (f (args s)) s)) -> triple P (modifyArgs f) Q F.
Proof. intros H s HP. apply H, HP. Qed.

Lemma triple_getExtra (P : St -> Prop) (Q : EthExtraArgs -> St -> Prop) F :
  (forall s, P s -> extras_of (args s) <> None) ->
  (forall s e, P s -> extras_of (args s) = Some e -> Q e s) ->
  triple P getExtra Q F.
Proof.
  intros Hsome H s HP. specialize (Hsome s HP). specialize (H s).
  unfold getExtra, bind, getArgs, deref, ret, panic, extras_of in *.
  destruct (Extra (args s)) as [[[e |]] |]; try congruence.
  apply H; [exact HP | reflexivity].
Qed.

Lemma triple_modifyExtra f (P : St -> Prop) (Q : unit -> St -> Prop) F :
  (forall s, P s -> extras_of (args s) <> None) ->
  (forall s e, P s -> extras_of (args s) = Some e ->
               Q tt (with_args (set_Extra (Some (mkAllExtras (Some (f e)))) (args s)) s)) ->
  triple P (modifyExtra f) Q F.
Proof.
  intros Hsome H. unfold modifyExtra.
  apply triple_bind with (R := fun e s => P s /\ extras_of (args s) = Some e).
  - apply triple_getExtra; auto.
  - intros e. apply triple_modifyArgs. intros s [HP He]. apply H; assumption.
Qed.

(** ** What the retry loop may do *)

Lemma retryRPC_quiet n c call err (s : St) :
  quiet s (snd (retryRPC n c call err s)).
Proof.
  split; [apply retryRPC_keeps_args |].
  destruct (retryRPC_trace n c call err s) as (evs & -> & Hevs).
  apply sequencer_calls_app, Hevs.
Qed.

Lemma retryRPC_error n c call : forall err (s : St) e,
  fst (retryRPC n c call err s) = Fail e ->
  (exists x, e = ErrRPC x) \/ err = Some e.
Proof.
  induction n as [| n IH]; intros err s e.
  - destruct err; cbn; intros H; inversion H; auto.
  - cbn [retryRPC]. unfold attempt.
    destruct (call (net s)) as [[x | v] n1]; [| discriminate].
    intros H. apply IH in H as [H | H]; [auto |].
    inversion H. eauto.
Qed.

Lemma triple_retryRPC n c call (P : St -> Prop) (Q : option Z -> St -> Prop) F :
  (forall s s1 v, P s -> quiet s s1 -> Q (Some v) s1) ->
  (forall s s1 x, P s -> quiet s s1 -> F (ErrRPC x) s1) ->
  triple P (retryRPC (S n) c call None) Q F.
Proof.
  intros HQ HF s HP.
  pose proof (retryRPC_quiet (S n) c call None s) as Hq.
  pose proof (retryRPC_outcome (S n) c call None s) as Ho.
  pose proof (retryRPC_error (S n) c call None s) as He.
  destruct (retryRPC (S n) c call None s) as [[[v |] | e |] s1]; cbn [fst snd] in *.
  - eapply HQ; eauto.
  - destruct Ho as [Ho _]. discriminate.
  - destruct (He e eq_refl) as [[x ->] | Hx]; [| discriminate]. eapply HF; eauto.
  - exact Ho.
Qed.

Lemma triple_assume {A} (phi : Prop) (P : St -> Prop) (m : M A) Q F :
  (phi -> triple P m Q F) -> triple (fun s => phi /\ P s) m Q F.
Proof. intros H s [Hphi HP]. apply (H Hphi s HP). Qed.

Lemma triple_exists {A X} (P : X -> St -> Prop) (m : M A) Q F :
  (forall x, triple (P x) m Q F) -> triple (fun s => exists x, P x s) m Q F.
Proof. intros H s [x HP]. apply (H x s HP). Qed.

Lemma triple_getAccountNonce pairID from swapType (P : St -> Prop)
      (Q : Z -> St -> Prop) F :
  (forall s s1 v, P s -> args s1 = args s ->
     sequencer_calls (trace s1) =
     (sequencer_calls (trace s) +
      (if custodial_swap b pairID from swapType then 1 else 0))%nat ->
     Q v s1) ->
  (forall s s1 x, P s -> quiet s s1 -> F (ErrRPC x) s1) ->
  triple P (getAccountNonce b pairID from swapType) Q F.
Proof.
  intros HQ HF. unfold getAccountNonce, fetchPoolNonce, retryRPCCount.
  apply triple_bind with
    (R := fun (r : option Z) s1 => exists s, P s /\ quiet s s1).
  { apply triple_retryRPC; eauto. }
  intros r s1 (s & HP & Hargs & Hcount).
  unfold custodial_swap in HQ.
  destruct (negb (SwapType_eqb swapType NoSwapType)); cbn [andb] in HQ.
  2: { cbn. apply (HQ s); [assumption .. | lia]. }
  destruct (GetTokenConfig b pairID) as [cfg |].
  2: { cbn. apply (HQ s); [assumption .. | lia]. }
  destruct (String.eqb from (DcrmAddress cfg)).
  2: { cbn. apply (HQ s); [assumption .. | lia]. }
  unfold adjustNonce. destruct (AdjustNonce b pairID _ (net s1)) as [v n1].
  apply (HQ s); [assumption .. |].
  cbn [trace]. unfold sequencer_calls in *.
  rewrite filter_app, length_app. cbn. lia.
Qed.

(** ** The resolution of the parameters *)

Lemma set_Value_same a v :
  Value a = Some v -> set_Value (Some (value_or_zero (Value a))) a = a.
Proof. destruct a; cbn. intros ->. reflexivity. Qed.

Lemma set_Value_given a v : Value a = Some v -> set_Value (Some v) a = a.
Proof. destruct a; cbn. intros ->. reflexivity. Qed.

Lemma set_Extra_same a e :
  extras_of a = Some e ->
  set_Extra (Some (mkAllExtras (Some e))) a = a.
Proof.
  unfold extras_of. destruct a as [? ? ? ? ? ? ? ? ? ? [[[e' |]] |]]; cbn; try discriminate.
  intros H. injection H as ->. reflexivity.
Qed.

Lemma setDefaults_spec (s0 : St) :
  triple (eq s0) (setDefaults b)
    (fun extra s =>
       args s = initialised (args s0) extra /\
       all_resolved extra /\
       keeps_overrides (given_extras (args s0)) extra /\
       (Gas (given_extras (args s0)) = None ->
        Gas extra = Some (getDefaultGasLimit b (PairID (args s0)))) /\
       sequencer_calls (trace s) =
       (sequencer_calls (trace s0) + sequencer_used b (args s0))%nat)
    (fun e s =>
       (exists e', args s = initialised (args s0) e' /\
                   keeps_overrides (given_extras (args s0)) e') /\
       sequencer_calls (trace s) = sequencer_calls (trace s0) /\
       ((exists x, e = ErrRPC x) \/
        (e = ErrUnknownPairID /\ SwapType (args s0) <> NoSwapType /\
         GetTokenConfig b (PairID (args s0)) = None /\
         GasPrice (given_extras (args s0)) = None))).
Proof.
  remember (args s0) as a0 eqn:Ha0.
  remember (given_extras a0) as e0 eqn:He0.
  pose (Body := fun (g n : bool) (e : EthExtraArgs) =>
    Gas e = Gas e0 /\
    (if g then GasPrice e <> None /\ (GasPrice e0 <> None -> GasPrice e = GasPrice e0)
     else GasPrice e = GasPrice e0) /\
    (if n then Nonce e <> None /\ (Nonce e0 <> None -> Nonce e = Nonce e0)
     else Nonce e = Nonce e0)).
  pose (Inv := fun (g n : bool) (k : nat) (s : St) =>
    exists e, args s = initialised a0 e /\ Body g n e /\
              sequencer_calls (trace s) = (sequencer_calls (trace s0) + k)%nat).
  assert (Hopen : forall g n k s e,
            Inv g n k s -> extras_of (args s) = Some e ->
            args s = initialised a0 e /\ Body g n e /\
            sequencer_calls (trace s) = (sequencer_calls (trace s0) + k)%nat).
  { intros g n k s e (e1 & Hargs & HB & Hc) He. rewrite Hargs in He. cbn in He.
    injection He as <-. auto. }
  assert (Hext : forall g n k s, Inv g n k s -> extras_of (args s) <> None).
  { intros g n k s (e & -> & _). cbn. discriminate. }
  assert (Hkeep : forall g n e, Body g n e -> keeps_overrides e0 e).
  { intros g n e (HG & HP & HN). split; [| split]; intros ?.
    - exact HG.
    - destruct g; [apply HP; assumption | exact HP].
    - destruct n; [apply HN; assumption | exact HN]. }
  assert (Hfail : forall g n s, Inv g n O s ->
            (exists e', args s = initialised a0 e' /\ keeps_overrides e0 e') /\
            sequencer_calls (trace s) = sequencer_calls (trace s0)).
  { intros g n s (e & Hargs & HB & Hc). split; [| lia]. exists e. eauto. }
  assert (Hupd : forall f (s : St) e,
            args s = initialised a0 e ->
            args (with_args (set_Extra (Some (mkAllExtras (Some (f e)))) (args s)) s) =
            initialised a0 (f e)).
  { intros f s e Hargs. cbn. rewrite Hargs. reflexivity. }
  unfold setDefaults.
  apply triple_bind with (R := fun a s => a = a0 /\ s = s0).
  { apply triple_getArgs. intros s <-. auto. }
  intros a. apply triple_assume. intros ->.
  apply triple_bind with
    (R := fun _ s => args s = set_Value (Some (value_or_zero (Value a0))) a0 /\
                     sequencer_calls (trace s) = sequencer_calls (trace s0)).
  { destruct (Value a0) eqn:EV.
    - apply triple_ret. intros s ->. split; [| reflexivity].
      rewrite <- Ha0, <- EV. symmetry. apply set_Value_same with (v := z). exact EV.
    - apply triple_modifyArgs. intros s ->. cbn. rewrite <- Ha0. auto. }
  intros _.
  apply triple_bind with (R := fun _ s => Inv false false O s).
  { assert (Hsame : forall e, extras_of a0 = Some e ->
              forall s : St,
                args s = set_Value (Some (value_or_zero (Value a0))) a0 /\
                sequencer_calls (trace s) = sequencer_calls (trace s0) ->
                Inv false false O s).
    { intros e He s [Hargs Hs]. exists e0. unfold given_extras in He0.
      rewrite He in He0. subst e0. repeat split; try lia.
      rewrite Hargs. unfold initialised.
      symmetry. apply set_Extra_same. exact He. }
    assert (Hnew : forall s : St,
              extras_of a0 = None ->
              args s = set_Value (Some (value_or_zero (Value a0))) a0 /\
              sequencer_calls (trace s) = sequencer_calls (trace s0) ->
              Inv false false O
                (with_args (set_Extra (Some (mkAllExtras (Some (mkEthExtraArgs None None None))))
                                      (args s)) s)).
    { intros s He [Hargs Hs]. exists e0. unfold given_extras in He0.
      rewrite He in He0. subst e0. cbn [with_args args trace]. rewrite Hargs. repeat split. lia. }
    unfold extras_of in Hsame, Hnew.
    destruct (Extra a0) as [[[e |]] |].
    - apply triple_ret. apply (Hsame e eq_refl).
    - apply triple_modifyArgs. intros s. apply Hnew. reflexivity.
    - apply triple_modifyArgs. intros s. apply Hnew. reflexivity. }
  intros _.
  (* gas price *)
  apply triple_bind with
    (R := fun extra s => Inv false false O s /\ extras_of (args s) = Some extra).
  { apply triple_getExtra; [apply Hext | auto]. }
  intros extra.
  apply triple_bind with (R := fun _ s => Inv true false O s).
  { destruct (GasPrice extra) as [gp |] eqn:EG.
    - apply triple_ret. intros s [HI He].
      destruct (Hopen _ _ _ _ _ HI He) as (Hargs & (HG & HP & HN) & Hc).
      exists extra. repeat split; try assumption; congruence.
    - apply triple_bind with
        (R := fun price s => exists v, price = Some v /\ Inv false false O s /\
                                       extras_of (args s) = Some extra).
      { unfold getGasPrice, retryRPCCount. apply triple_retryRPC.
        - intros s s1 v [HI He] [Hargs Hs]. exists v. split; [reflexivity |].
          rewrite Hargs. split; [| exact He].
          destruct HI as (e & Ha & HB & Hc). exists e.
          rewrite Hargs, Hs. auto.
        - intros s s1 x [HI He] [Hargs Hs].
          destruct (Hfail _ _ s HI) as [Hk Hc].
          rewrite Hargs, Hs. split; [exact Hk |]. split; [exact Hc |]. left. eauto. }
      intros price. apply triple_exists. intros v. apply triple_assume. intros ->.
      apply triple_bind with (R := fun _ s => Inv true false O s /\ GasPrice e0 = None).
      { apply triple_modifyExtra.
        - intros s [HI _]. apply (Hext _ _ _ _ HI).
        - intros s e [HI He'] He.
          destruct (Hopen _ _ _ _ _ HI He) as (Hargs & (HG & HP & HN) & Hc).
          assert (e = extra) by congruence. subst e.
          split; [| congruence].
          exists (set_GasPrice (Some v) extra). split; [apply Hupd, Hargs |].
          split; [| exact Hc]. repeat split; try assumption; try discriminate.
          intros Hne. exfalso. apply Hne. congruence. }
      intros _.
      destruct (negb (SwapType_eqb (SwapType a0) NoSwapType)) eqn:ET.
      2: { apply triple_ret. intros s [HI _]. exact HI. }
      destruct (GetTokenConfig b (PairID a0)) as [cfg |] eqn:EC.
      2: { apply triple_fail. intros s [HI HG0].
           destruct (Hfail _ _ s HI) as [Hk Hc].
           split; [exact Hk |]. split; [exact Hc |].
           right. repeat split; try assumption.
           intros Heq. rewrite Heq in ET. discriminate. }
      destruct (PlusGasPricePercentage cfg >? 0).
      2: { apply triple_ret. intros s [HI _]. exact HI. }
      cbn [deref]. apply triple_bind with (R := fun _ s => Inv true false O s /\ GasPrice e0 = None).
      { apply triple_ret. auto. }
      intros p. apply triple_modifyExtra.
      { intros s [HI _]. apply (Hext _ _ _ _ HI). }
      intros s e [HI HG0] He.
      destruct (Hopen _ _ _ _ _ HI He) as (Hargs & (HG & [HP HP'] & HN) & Hc).
      eexists. split; [apply Hupd, Hargs |]. split; [| exact Hc].
      repeat split; try assumption; try discriminate.
      intros Hne. congruence. }
  intros _.
  (* nonce *)
  apply triple_bind with
    (R := fun extra s => Inv true false O s /\ extras_of (args s) = Some extra).
  { apply triple_getExtra; [apply Hext | auto]. }
  clear extra. intros extra.
  apply triple_bind with (R := fun _ s => Inv true true (sequencer_used b a0) s).
  { destruct (Nonce extra) as [nn |] eqn:EN.
    - apply triple_ret. intros s [HI He].
      destruct (Hopen _ _ _ _ _ HI He) as (Hargs & (HG & HP & HN) & Hc).
      exists extra. split; [exact Hargs |]. split.
      + destruct HP as [HP HP2]. repeat split; try assumption; congruence.
      + unfold sequencer_used. rewrite <- He0, <- HN, EN. exact Hc.
    - apply triple_bind with
        (R := fun _ s => Inv true false (sequencer_used b a0) s /\ Nonce e0 = None).
      { apply triple_getAccountNonce.
        - intros s s1 v [HI He] Hargs Hs.
          destruct (Hopen _ _ _ _ _ HI He) as (Ha & (HG & HP & HN) & Hc).
          split; [| congruence].
          exists extra. rewrite Hargs. split; [exact Ha |].
          split; [split; [exact HG | split; [exact HP | exact HN]] |].
          rewrite Hs, Hc. unfold sequencer_used. rewrite <- He0, <- HN, EN. lia.
        - intros s s1 x [HI He] [Hargs Hs].
          destruct (Hfail _ _ s HI) as [Hk Hc].
          rewrite Hargs, Hs. split; [exact Hk |]. split; [exact Hc |]. left. eauto. }
      intros nonce. apply triple_modifyExtra.
      { intros s [HI _]. apply (Hext _ _ _ _ HI). }
      intros s e [HI HN0] He.
      destruct (Hopen _ _ _ _ _ HI He) as (Hargs & (HG & HP & HN) & Hc).
      eexists. split; [apply Hupd, Hargs |]. split; [| exact Hc].
      split; [exact HG | split; [exact HP | split; [discriminate |]]].
      intros Hne. exfalso. apply Hne. exact HN0. }
  intros _.
  (* gas limit *)
  apply triple_bind with
    (R := fun extra s => Inv true true (sequencer_used b a0) s /\
                         extras_of (args s) = Some extra).
  { apply triple_getExtra; [apply Hext | auto]. }
  clear extra. intros extra.
  pose (Done := fun (s : St) =>
    exists e, args s = initialised a0 e /\ all_resolved e /\ keeps_overrides e0 e /\
              (Gas e0 = None -> Gas e = Some (getDefaultGasLimit b (PairID a0))) /\
              sequencer_calls (trace s) =
              (sequencer_calls (trace s0) + sequencer_used b a0)%nat).
  apply triple_bind with (R := fun _ s => Done s).
  { destruct (Gas extra) as [gl |] eqn:EGl.
    - apply triple_ret. intros s [HI He].
      destruct (Hopen _ _ _ _ _ HI He) as (Hargs & HB & Hc).
      exists extra. split; [exact Hargs |].
      pose proof (Hkeep _ _ _ HB) as Hk.
      destruct HB as (HG & [HP _] & [HN _]).
      split; [repeat split; congruence |]. split; [exact Hk |].
      split; [congruence | exact Hc].
    - apply triple_modifyExtra.
      { intros s [HI _]. apply (Hext _ _ _ _ HI). }
      intros s e [HI He'] He.
      destruct (Hopen _ _ _ _ _ HI He) as (Hargs & HB & Hc).
      assert (e = extra) by congruence. subst e.
      eexists. split; [apply Hupd, Hargs |].
      destruct (Hkeep _ _ _ HB) as (Hk1 & Hk2 & Hk3).
      destruct HB as (HG & [HP _] & [HN _]).
      split; [repeat split; [discriminate | exact HP | exact HN] |].
      split; [| split; [reflexivity | exact Hc]].
      split; [| split; assumption].
      intros Hne. exfalso. apply Hne. congruence. }
  intros _. apply triple_getExtra.
  { intros s (e & -> & _). cbn. discriminate. }
  intros s e (e1 & Hargs & HR & Hk & HGd & Hc) He.
  rewrite Hargs in He. cbn in He. injection He as <-.
  repeat split; try assumption; apply HR || apply Hk.
Qed.

(** ** The balance checks and the assembly *)

Lemma triple_ghost {A} (P : St -> Prop) (m : M A) Q F :
  (forall s0, P s0 -> triple (eq s0) m Q F) -> triple P m Q F.
Proof. intros H s HP. apply (H s HP s eq_refl). Qed.

Lemma triple_checkCoinBalance from value gasFee (P : St -> Prop)
      (Q : unit -> St -> Prop) F :
  (forall s s1, P s -> quiet s s1 -> Q tt s1) ->
  (forall s s1 e, P s -> quiet s s1 ->
     (exists x, e = ErrGetBalance from (ErrRPC x)) \/
     (exists bal, e = ErrNotEnoughCoinBalance bal value gasFee /\
                  bal < counted value + counted gasFee) ->
     F e s1) ->
  triple P (checkCoinBalance b from value gasFee) Q F.
Proof.
  intros HQ HF s HP.
  pose proof (retryRPC_quiet retryRPCCount (RpcGetBalance from) (GetBalance b from) None s) as Hq.
  pose proof (retryRPC_outcome retryRPCCount (RpcGetBalance from) (GetBalance b from) None s) as Ho.
  pose proof (retryRPC_error retryRPCCount (RpcGetBalance from) (GetBalance b from) None s) as He.
  fold (getBalance b from) in Hq, Ho, He.
  destruct (getBalance b from s) as [[[bal |] | e |] s1] eqn:E; cbn [fst snd] in *.
  - erewrite checkCoinBalance_run; [| exact E | reflexivity | reflexivity].
    assert (Hs1 : mkSt (args s) (net s1) (trace s1) = s1).
    { destruct Hq as [Hargs _]. destruct s1; cbn in *. congruence. }
    rewrite Hs1. destruct (bal <? counted value + counted gasFee) eqn:Elt.
    + eapply HF; [exact HP | exact Hq |]. right. exists bal. split; [reflexivity | lia].
    + eapply HQ; eauto.
  - destruct Ho as [Ho _]. discriminate.
  - unfold checkCoinBalance. rewrite E.
    destruct (He e eq_refl) as [[x ->] | Hx]; [| discriminate].
    eapply HF; [exact HP | exact Hq |]. left. eauto.
  - contradiction.
Qed.

Lemma triple_checkTokenBalance token from value (P : St -> Prop)
      (Q : unit -> St -> Prop) F :
  (forall s s1 bal, P s -> quiet s s1 -> value <= bal -> Q tt s1) ->
  (forall s s1 e, P s -> quiet s s1 ->
     (exists x, e = ErrRPC x) \/
     (exists bal, e = ErrNotEnoughTokenBalance bal value /\ bal < value) ->
     F e s1) ->
  triple P (checkTokenBalance b token from value) Q F.
Proof.
  intros HQ HF. unfold checkTokenBalance, retryRPCCount.
  apply triple_bind with
    (R := fun r s1 => exists v, r = Some v /\ exists s, P s /\ quiet s s1).
  { apply triple_retryRPC.
    - intros s s1 v HP Hq. eauto.
    - intros s s1 x HP Hq. eapply HF; eauto. }
  intros r. apply triple_exists. intros v. apply triple_assume. intros ->.
  cbn [deref]. intros s1 (s & HP & Hq). unfold bind, ret.
  destruct (v <? value) eqn:Elt; cbn.
  - eapply HF; [exact HP | exact Hq |]. right. exists v. split; [reflexivity | lia].
  - eapply (HQ s s1 v); [exact HP | exact Hq | lia].
Qed.

Lemma quiet_refl (s : St) : quiet s s.
Proof. split; reflexivity. Qed.

Lemma buildTx_spec extra input (s0 : St) :
  all_resolved extra ->
  triple (eq s0) (buildTx pk b extra input)
    (fun tx s =>
       args s = stamp_identifier pk (args s0) /\
       sequencer_calls (trace s) = sequencer_calls (trace s0) /\
       Some (tx_nonce tx) = Nonce extra /\
       Some (tx_gasLimit tx) = Gas extra /\
       tx_gasPrice tx = GasPrice extra /\
       tx_to tx = HexToAddress pk (To (args s0)) /\
       tx_value tx = build_value pk b (args s0) /\
       tx_data tx = input)
    (fun e s =>
       sequencer_calls (trace s) = sequencer_calls (trace s0) /\
       ((e = ErrUnknownPairID /\ SwapType (args s0) = SwapoutType /\
         GetTokenConfig b (PairID (args s0)) = None) \/
        (exists x, e = ErrGetBalance (From (args s0)) (ErrRPC x)) \/
        (exists bal v f, e = ErrNotEnoughCoinBalance bal v f /\
                         bal < counted v + counted f))).
Proof.
  intros (HG & HP & HN).
  destruct (Gas extra) as [gasLimit |] eqn:EG; [| congruence].
  destruct (GasPrice extra) as [gp |] eqn:EP; [| congruence].
  destruct (Nonce extra) as [nonce |] eqn:EN; [| congruence].
  unfold buildTx.
  apply triple_bind with (R := fun a s => a = args s0 /\ s = s0).
  { apply triple_getArgs. intros s <-. auto. }
  intros a. apply triple_assume. intros ->.
  rewrite EN, EG, EP. cbn [deref].
  apply triple_bind with (R := fun n s => n = nonce /\ s = s0).
  { apply triple_ret. auto. }
  intros n. apply triple_assume. intros ->.
  apply triple_bind with (R := fun g s => g = gasLimit /\ s = s0).
  { apply triple_ret. auto. }
  intros g. apply triple_assume. intros ->.
  apply triple_bind with (R := fun v s => v = build_value pk b (args s0) /\ s = s0).
  { unfold build_value.
    destruct (SwapType (args s0)) eqn:ET; try (apply triple_ret; auto).
    destruct (GetTokenConfig b (PairID (args s0))) as [cfg |] eqn:EC.
    - destruct (negb (IsErc20 cfg)); apply triple_ret; auto.
    - apply triple_fail. intros s <-. split; [reflexivity |]. left. auto. }
  intros v. apply triple_assume. intros ->.
  apply triple_bind with
    (R := fun _ s => args s = stamp_identifier pk (args s0) /\
                     sequencer_calls (trace s) = sequencer_calls (trace s0)).
  { unfold stamp_identifier.
    destruct (negb (SwapType_eqb (SwapType (args s0)) NoSwapType)).
    - apply triple_modifyArgs. intros s <-. cbn. auto.
    - apply triple_ret. intros s <-. auto. }
  intros _.
  apply triple_bind with
    (R := fun (_ : Z) s => args s = stamp_identifier pk (args s0) /\
                     sequencer_calls (trace s) = sequencer_calls (trace s0)).
  { destruct (SwapType_eqb (SwapType (args s0)) NoSwapType).
    - cbn [deref]. apply triple_bind with
        (R := fun (_ : Z) s => args s = stamp_identifier pk (args s0) /\
                     sequencer_calls (trace s) = sequencer_calls (trace s0)).
      + apply triple_ret. auto.
      + intros p. apply triple_ret. auto.
    - apply triple_ret. auto. }
  intros gasFee.
  apply triple_bind with
    (R := fun _ s => args s = stamp_identifier pk (args s0) /\
                     sequencer_calls (trace s) = sequencer_calls (trace s0)).
  { apply triple_checkCoinBalance.
    - intros s s1 [Ha Hs] [Hargs Hc]. split; congruence.
    - intros s s1 e [Ha Hs] [Hargs Hc] He. split; [congruence |].
      right. destruct He as [He | [bal [-> Hlt]]]; [left; exact He | right; eauto]. }
  intros _. apply triple_ret. intros s [Ha Hs]. cbn. auto 10.
Qed.

Lemma resolve_and_build_spec input (s0 : St) :
  triple (eq s0) (resolve_and_build pk b input)
    (fun tx s => exists extra,
       args s = stamp_identifier pk (initialised (args s0) extra) /\
       all_resolved extra /\
       keeps_overrides (given_extras (args s0)) extra /\
       (Gas (given_extras (args s0)) = None ->
        Gas extra = Some (getDefaultGasLimit b (PairID (args s0)))) /\
       sequencer_calls (trace s) =
       (sequencer_calls (trace s0) + sequencer_used b (args s0))%nat /\
       Some (tx_nonce tx) = Nonce extra /\
       Some (tx_gasLimit tx) = Gas extra /\
       tx_gasPrice tx = GasPrice extra /\
       tx_to tx = HexToAddress pk (To (args s0)) /\
       tx_data tx = input)
    (fun e s =>
       ((exists x, e = ErrRPC x) /\
        sequencer_calls (trace s) = sequencer_calls (trace s0)) \/
       (e = ErrUnknownPairID /\ SwapType (args s0) <> NoSwapType /\
        GetTokenConfig b (PairID (args s0)) = None) \/
       (((exists x, e = ErrGetBalance (From (args s0)) (ErrRPC x)) \/
         (exists bal v f, e = ErrNotEnoughCoinBalance bal v f /\
                          bal < counted v + counted f)) /\
        sequencer_calls (trace s) =
        (sequencer_calls (trace s0) + sequencer_used b (args s0))%nat)).
Proof.
  unfold resolve_and_build.
  eapply triple_bind.
  { eapply triple_conseq; [apply (setDefaults_spec s0) | auto | intros extra s H; exact H |].
    intros e s (_ & Hc & [Hx | (-> & Ht & Hcfg & _)]); auto. }
  intros extra. apply triple_ghost.
  intros s1 (Hargs & Hres & Hkeep & Hgas & Hc).
  eapply triple_conseq; [apply (buildTx_spec extra input s1 Hres) | auto | |].
  - intros tx s (Ha & Hs & Hn & Hg & Hp & Hto & _ & Hd).
    exists extra. rewrite Ha, Hs, Hto, Hargs. auto 12.
  - intros e s (Hs & [(-> & Ht & Hcfg) | Hbal]).
    + right. left. rewrite Hargs in Ht, Hcfg. cbn in Ht, Hcfg.
      split; [reflexivity |]. split; [congruence | exact Hcfg].
    + right. right. rewrite Hargs in Hbal. cbn in Hbal. split; [exact Hbal | congruence].
Qed.

Lemma after_leg_fields a :
  PairID (after_leg pk b a) = PairID a /\
  SwapType (after_leg pk b a) = SwapType a /\
  SwapID (after_leg pk b a) = SwapID a /\
  Bind (after_leg pk b a) = Bind a /\
  OriginValue (after_leg pk b a) = OriginValue a /\
  Value (after_leg pk b a) = Value a /\
  Identifier (after_leg pk b a) = Identifier a /\
  Extra (after_leg pk b a) = Extra a.
Proof.
  unfold after_leg, default_from.
  destruct (Input a), (SwapType a) eqn:ET, (GetTokenConfig b (PairID a)) as [cfg |];
    repeat match goal with
           | |- context [if ?c then _ else _] => destruct c
           end; repeat split; exact ET.
Qed.

Lemma given_extras_after_leg a :
  given_extras (after_leg pk b a) = given_extras a.
Proof.
  unfold given_extras, extras_of.
  destruct (after_leg_fields a) as (_ & _ & _ & _ & _ & _ & _ & ->). reflexivity.
Qed.

Lemma resolve_after_leg (s0 : St) :
  SwapType (args s0) = NoSwapType \/ GetTokenConfig b (PairID (args s0)) <> None ->
  triple (fun s1 => args s1 = after_leg pk b (args s0) /\
                    sequencer_calls (trace s1) = sequencer_calls (trace s0))
         (resolve_and_build pk b (payload_of pk b (args s0)))
         (built pk b s0) (not_built pk b s0).
Proof.
  intros Hcfg. apply triple_ghost. intros s1 [Hargs Hc].
  destruct (after_leg_fields (args s0)) as (HP & HT & _).
  eapply triple_conseq; [apply (resolve_and_build_spec _ s1) | auto | |].
  - intros tx s (extra & H). exists extra.
    rewrite Hargs, Hc, given_extras_after_leg, HP in H. exact H.
  - intros e s H. rewrite Hargs, Hc, HP, HT in H. unfold not_built.
    destruct H as [[[x ->] Hs] | [(-> & Ht & Hnone) | [[[x ->] | (bal & v & f & -> & Hlt)] Hs]]];
      cbn [error_cause coin_balance_error].
    + split; [exact I | lia].
    + exfalso. destruct Hcfg as [Hcfg | Hcfg]; [apply Ht, Hcfg | apply Hcfg, Hnone].
    + split; [reflexivity | exact Hs].
    + split; [exact Hlt | exact Hs].
Qed.

Lemma BuildRawTransaction_spec (s0 : St) :
  triple (eq s0) (BuildRawTransaction pk b) (built pk b s0) (not_built pk b s0).
Proof.
  intros s <-. rewrite BuildRawTransaction_cases. unfold build_cases.
  assert (Hgo : forall s1 : St,
            SwapType (args s0) = NoSwapType \/ GetTokenConfig b (PairID (args s0)) <> None ->
            args s1 = after_leg pk b (args s0) ->
            sequencer_calls (trace s1) = sequencer_calls (trace s0) ->
            match resolve_and_build pk b (payload_of pk b (args s0)) s1 with
            | (Ok tx, s') => built pk b s0 tx s'
            | (Fail e, s') => not_built pk b s0 e s'
            | (Panic, _) => False
            end).
  { intros s1 Hcfg Ha Hc. apply (resolve_after_leg s0 Hcfg s1). auto. }
  assert (Hstop : forall e (s1 : St),
            error_cause pk b (args s0) e -> coin_balance_error e = false ->
            sequencer_calls (trace s1) = sequencer_calls (trace s0) ->
            not_built pk b s0 e s1).
  { intros e s1 He Hb Hc. split; [exact He |]. rewrite Hb. lia. }
  unfold after_leg, payload_of in Hgo. unfold valid_bind in *.
  destruct (Input (args s0)) as [input |] eqn:EI.
  { destruct (SwapType (args s0)) eqn:ET; cbn [negb SwapType_eqb].
    - apply Hgo; auto.
    - apply Hstop; [| reflexivity | reflexivity]. cbn. rewrite EI, ET. split; discriminate.
    - apply Hstop; [| reflexivity | reflexivity]. cbn. rewrite EI, ET. split; discriminate. }
  destruct (SwapType (args s0)) eqn:ET.
  - destruct (GetTokenConfig b (PairID (args s0))); apply Hgo; auto.
  - destruct (GetTokenConfig b (PairID (args s0))) as [cfg |] eqn:EC.
    2: { apply Hstop; [| reflexivity | reflexivity]. cbn. rewrite EI, ET, EC.
         repeat split; discriminate. }
    destruct (IsSrc b) eqn:ES.
    { apply Hstop; [| reflexivity | reflexivity]. cbn. rewrite EI, ET.
      split; [reflexivity |]. left. auto. }
    destruct (negb _) eqn:EV.
    + apply Hgo; [right; discriminate | reflexivity | reflexivity].
    + apply Hstop; [| reflexivity | reflexivity]. cbn. rewrite EI, ET.
      unfold valid_bind. rewrite EV. auto.
  - destruct (GetTokenConfig b (PairID (args s0))) as [cfg |] eqn:EC.
    2: { apply Hstop; [| reflexivity | reflexivity]. cbn. rewrite EI, ET, EC.
         repeat split; discriminate. }
    destruct (IsSrc b) eqn:ES; cbn [negb].
    2: { apply Hstop; [| reflexivity | reflexivity]. cbn. rewrite EI, ET.
         split; [reflexivity |]. right. auto. }
    destruct (IsErc20 cfg) eqn:EE.
    2: { apply Hgo; [right; discriminate | reflexivity | reflexivity]. }
    destruct (negb _) eqn:EV.
    2: { apply Hstop; [| reflexivity | reflexivity]. cbn. rewrite EI, ET.
         unfold valid_bind. rewrite EV. auto. }
    match goal with
    | |- match bind ?m ?f ?s1 with _ => _ end =>
        assert (Ht : triple (fun s => args s = args s1 /\
                                      sequencer_calls (trace s) = sequencer_calls (trace s0))
                            (bind m f) (built pk b s0) (not_built pk b s0))
    end.
    { apply triple_bind with
        (R := fun _ s => args s = after_leg pk b (args s0) /\
                         sequencer_calls (trace s) = sequencer_calls (trace s0)).
      - apply triple_checkTokenBalance.
        + intros s s1 bal [Ha Hc] [Hargs Hq] _. rewrite Hargs, Hq, Ha. split; [| exact Hc].
          unfold after_leg. rewrite EI, ET, EC, EE. reflexivity.
        + intros s s1 e [Ha Hc] [Hargs Hq] [[x ->] | (bal & -> & Hlt)].
          * apply Hstop; [exact I | reflexivity | congruence].
          * apply Hstop; [| reflexivity | congruence]. cbn. rewrite EI, ET. auto.
      - intros _. pose proof (resolve_after_leg s0) as Hr.
        unfold payload_of in Hr. rewrite EI, ET, EC, EE in Hr.
        apply Hr. right. discriminate. }
    apply Ht. split; reflexivity.
Qed.

(** ** What the resolution of the parameters guarantees *)

Lemma setDefaults_run_spec (s s' : St) r :
  setDefaults b s = (r, s') ->
  match r with
  | Ok extra =>
      args s' = initialised (args s) extra /\
      all_resolved extra /\
      keeps_overrides (given_extras (args s)) extra /\
      (Gas (given_extras (args s)) = None ->
       Gas extra = Some (getDefaultGasLimit b (PairID (args s)))) /\
      sequencer_calls (trace s') =
      (sequencer_calls (trace s) + sequencer_used b (args s))%nat
  | Fail e =>
      (exists e', args s' = initialised (args s) e' /\
                  keeps_overrides (given_extras (args s)) e') /\
      sequencer_calls (trace s') = sequencer_calls (trace s) /\
      ((exists x, e = ErrRPC x) \/
       (e = ErrUnknownPairID /\ SwapType (args s) <> NoSwapType /\
        GetTokenConfig b (PairID (args s)) = None /\
        GasPrice (given_extras (args s)) = None))
  | Panic => False
  end.
Proof.
  intros H. pose proof (setDefaults_spec s s eq_refl) as Hs. rewrite H in Hs.
  destruct r; exact Hs.
Qed.

Lemma BuildRawTransaction_run_spec (s s' : St) r :
  BuildRawTransaction pk b s = (r, s') ->
  match r with
  | Ok tx => built pk b s tx s'
  | Fail e => not_built pk b s e s'
  | Panic => False
  end.
Proof.
  intros H. pose proof (BuildRawTransaction_spec s s eq_refl) as Hs. rewrite H in Hs.
  destruct r; exact Hs.
Qed.

Lemma getDefaultGasLimit_nonzero pairID : getDefaultGasLimit b pairID <> 0.
Proof.
  unfold getDefaultGasLimit, defGasLimit.
  destruct (GetTokenConfig b pairID) as [cfg |]; cbn.
  - destruct (DefaultGasLimit cfg =? 0) eqn:E; lia.
  - discriminate.
Qed.

(** X1: a build never dereferences a [nil] pointer, whatever the intent, the
    pair registry and the answers of the gateway, as long as a gateway
    call that returns no error returns a value: every pointer that
    [BuildRawTransaction], [setDefaults] and [buildTx] dereference
    ([*args.Input], [*extra.Nonce], [*extra.Gas], the gas price in the fee
    and in the markup, the balances compared, the pair configuration of
    the SwapOut leg) has been set by then.  The same holds of
    [setDefaults] called on its own. *)
Theorem build_never_panics (s : St) :
  fst (BuildRawTransaction pk b s) <> Panic /\ fst (setDefaults b s) <> Panic.
Proof.
  split.
  - destruct (BuildRawTransaction pk b s) as [r s'] eqn:E.
    apply BuildRawTransaction_run_spec in E. destruct r; [discriminate .. | contradiction].
  - destruct (setDefaults b s) as [r s'] eqn:E.
    apply setDefaults_run_spec in E. destruct r; [discriminate .. | contradiction].
Qed.

(** X2: when [setDefaults] succeeds, the record it returns is the one the
    intent holds in [args.Extra.EthExtra], its gas limit, gas price and
    nonce are all set, [args.Value] is the given value or zero when it was
    [nil], and no other field of the intent has changed.  When it fails,
    [args.Value] and [args.Extra] have been initialised all the same and
    the other fields are unchanged. *)
Theorem setDefaults_initialises_intent (s s' : St) :
  (forall extra,
      setDefaults b s = (Ok extra, s') ->
      args s' = initialised (args s) extra /\
      extras_of (args s') = Some extra /\
      all_resolved extra /\
      Value (args s') = Some (value_or_zero (Value (args s)))) /\
  (forall e,
      setDefaults b s = (Fail e, s') ->
      exists extra,
        args s' = initialised (args s) extra /\
        Value (args s') = Some (value_or_zero (Value (args s)))).
Proof.
  split.
  - intros extra H. apply setDefaults_run_spec in H as (Ha & Hr & _).
    rewrite Ha. repeat split; apply Hr.
  - intros e H. apply setDefaults_run_spec in H as ((e' & Ha & _) & _).
    exists e'. rewrite Ha. split; reflexivity.
Qed.

(** X3: [setDefaults] resolves only what the caller left out: a gas limit, gas
    price or nonce given in the intent is returned as given.  A gas limit
    left out becomes the default of the pair, which is never zero: the
    pair's [DefaultGasLimit] when the pair is known and that is not zero,
    and 90000 otherwise. *)
Theorem setDefaults_keeps_overrides (s s' : St) extra :
  setDefaults b s = (Ok extra, s') ->
  keeps_overrides (given_extras (args s)) extra /\
  (Gas (given_extras (args s)) = None ->
   Gas extra = Some (getDefaultGasLimit b (PairID (args s))) /\
   getDefaultGasLimit b (PairID (args s)) <> 0 /\
   getDefaultGasLimit b (PairID (args s)) =
   match GetTokenConfig b (PairID (args s)) with
   | Some tokenCfg =>
       if DefaultGasLimit tokenCfg =? 0 then 90000 else DefaultGasLimit tokenCfg
   | None => 90000
   end).
Proof.
  intros H. apply setDefaults_run_spec in H as (_ & _ & Hk & Hg & _).
  split; [exact Hk |]. intros Hnone.
  split; [apply Hg, Hnone |]. split; [apply getDefaultGasLimit_nonzero |].
  unfold getDefaultGasLimit. destruct (GetTokenConfig b (PairID (args s))); reflexivity.
Qed.

Lemma setDefaults_all_given (s : St) e :
  extras_of (args s) = Some e ->
  all_resolved e ->
  setDefaults b s = (Ok e, with_args (initialised (args s) e) s).
Proof.
  intros He (HG & HP & HN).
  destruct s as [a n tr]. destruct a as [? ? ? ? ? ? ? v ? ? ex].
  unfold extras_of in He. cbn in He.
  destruct ex as [[[e1 |]] |]; try discriminate. injection He as ->.
  destruct e as [[g |] [p |] [nn |]]; cbn in HG, HP, HN; try congruence.
  destruct v; reflexivity.
Qed.

(** X4: with gas limit, gas price and nonce all given, [setDefaults] asks
    neither the gateway nor the sequencer: it returns the given record,
    the chain and the trace are as before, and the intent differs at most
    in [Value], [nil] having become zero. *)
Theorem setDefaults_with_all_overrides (s : St) e :
  extras_of (args s) = Some e ->
  all_resolved e ->
  setDefaults b s = (Ok e, with_args (initialised (args s) e) s).
Proof. apply setDefaults_all_given. Qed.

(** X5: running [setDefaults] again after it succeeded changes nothing: the
    second run returns the same record and leaves the state, chain and
    trace included, as the first run left it. *)
Theorem setDefaults_idempotent (s s' : St) extra :
  setDefaults b s = (Ok extra, s') ->
  setDefaults b s' = (Ok extra, s').
Proof.
  intros H. apply setDefaults_run_spec in H as (Ha & Hr & _).
  assert (He : extras_of (args s') = Some extra) by (rewrite Ha; reflexivity).
  rewrite (setDefaults_all_given s' extra He Hr). f_equal.
  destruct s' as [a' n' tr']. cbn in *. unfold with_args. cbn. f_equal.
  rewrite Ha. reflexivity.
Qed.

(** X6: [setDefaults] calls the nonce sequencer exactly once when it succeeds
    for an intent that leaves the nonce out and is a swap sent from the
    custodial address of its pair, and not at all when it succeeds for any
    other intent.  When it fails the sequencer has not been called. *)
Theorem setDefaults_sequencer_calls (s s' : St) r :
  setDefaults b s = (r, s') ->
  sequencer_calls (trace s') =
  (sequencer_calls (trace s) +
   match r with
   | Ok _ =>
       match Nonce (given_extras (args s)) with
       | Some _ => 0
       | None =>
           if custodial_swap b (PairID (args s)) (From (args s)) (SwapType (args s))
           then 1 else 0
       end
   | _ => 0
   end)%nat.
Proof.
  intros H. apply setDefaults_run_spec in H. destruct r as [extra | e |].
  - destruct H as (_ & _ & _ & _ & Hc). exact Hc.
  - destruct H as (_ & Hc & _). lia.
  - contradiction.
Qed.

(** ** What a build guarantees *)

#[local] Instance same_request_pre : PreOrder same_request.
Proof.
  split.
  - intros a. reflexivity.
  - intros a1 a2 a3 H1 H2. unfold same_request in *. congruence.
Qed.

#[local] Instance same_sender_pre : PreOrder same_sender.
Proof.
  split.
  - intros a. reflexivity.
  - intros a1 a2 a3 H1 H2. unfold same_sender in *. congruence.
Qed.

Lemma keeps_request_BuildRawTransaction : keeps same_request (BuildRawTransaction pk b).
Proof.
  unfold BuildRawTransaction, setDefaults, buildTx, buildSwapinTxInput,
    buildErc20SwapoutTxInput.
  solve_keeps; reflexivity.
Qed.

Lemma keeps_sender_resolve_and_build input :
  keeps same_sender (resolve_and_build pk b input).
Proof.
  unfold resolve_and_build, setDefaults, buildTx. solve_keeps; reflexivity.
Qed.

(** X7: the transaction a build returns carries the nonce, the gas limit and
    the gas price that the build leaves in [args.Extra.EthExtra] of the
    intent; all three are set there, and each one the caller gave is the
    one used. *)
Theorem built_transaction_parameters (s s' : St) tx :
  BuildRawTransaction pk b s = (Ok tx, s') ->
  exists extra,
    extras_of (args s') = Some extra /\
    Nonce extra = Some (tx_nonce tx) /\
    Gas extra = Some (tx_gasLimit tx) /\
    GasPrice extra = tx_gasPrice tx /\
    tx_gasPrice tx <> None /\
    keeps_overrides (given_extras (args s)) extra.
Proof.
  intros H. apply BuildRawTransaction_run_spec in H.
  destruct H as (extra & Ha & (HG & HP & HN) & Hk & _ & _ & Hn & Hg & Hp & _).
  exists extra. rewrite Ha. split.
  { unfold stamp_identifier. destruct (negb _); reflexivity. }
  repeat split; try congruence; apply Hk.
Qed.

(** X8: the error of a failed build tells why it failed: each error value is
    returned only in the situation it names.  A raw payload with a swap
    type gives the "forbid" error; an unknown pair is reported only for a
    swap without payload whose pair the registry does not know; the
    wrong-endpoint error only for a direction the endpoint must not build;
    the invalid-address errors only for the leg they name and a bind
    address that fails the test; the token-balance error only for a
    SwapOut, with the amount needed and a smaller balance; the
    coin-balance error only with a balance below the counted value plus
    fee; a balance-fetch error wraps a gateway error and names the
    sender. *)
Theorem build_errors_have_causes (s s' : St) e :
  BuildRawTransaction pk b s = (Fail e, s') ->
  error_cause pk b (args s) e.
Proof. intros H. apply BuildRawTransaction_run_spec in H. apply H. Qed.

(** X9: a build calls the nonce sequencer at most once, and only when the
    nonce is left to it and the build is a swap whose sender, after an
    empty sender was replaced by the custodial address, is the custodial
    address of the pair.  In that case the call has been made when the
    build succeeds, and also when the build fails at the coin balance
    check, which comes after it: the sequencer has moved on although no
    transaction was built.  Every other failure comes before the call. *)
Theorem build_sequencer_calls (s s' : St) r :
  BuildRawTransaction pk b s = (r, s') ->
  let used := sequencer_used b (after_leg pk b (args s)) in
  sequencer_calls (trace s') =
  (sequencer_calls (trace s) +
   match r with
   | Ok _ => used
   | Fail e => if coin_balance_error e then used else 0
   | Panic => 0
   end)%nat /\
  (used <= 1)%nat /\
  (SwapType (args s) = NoSwapType -> used = 0%nat) /\
  (Nonce (given_extras (args s)) <> None -> used = 0%nat).
Proof.
  intros H used. split; [| split; [| split]].
  - apply BuildRawTransaction_run_spec in H. destruct r as [tx | e |].
    + destruct H as (extra & _ & _ & _ & _ & Hc & _). exact Hc.
    + destruct H as [_ Hc]. exact Hc.
    + contradiction.
  - unfold used, sequencer_used. destruct (Nonce _); [lia |].
    destruct (custodial_swap _ _ _ _); lia.
  - intros Ht. unfold used, sequencer_used, custodial_swap.
    destruct (after_leg_fields (args s)) as (_ & -> & _). rewrite Ht.
    destruct (Nonce _); reflexivity.
  - intros Hn. unfold used, sequencer_used. rewrite given_extras_after_leg.
    destruct (Nonce _); [reflexivity | congruence].
Qed.

(** X10: no build, whether it succeeds or fails, writes the pair, the swap id,
    the swap type, the bind address or the origin value of the intent.
    The sender is written only in one case: an empty sender of a swap
    without payload on a known pair becomes the custodial address of the
    pair, and this happens before any check that can fail. *)
Theorem build_keeps_request (s : St) :
  let a := args s in
  let a' := args (snd (BuildRawTransaction pk b s)) in
  request_of a' = request_of a /\
  From a' =
  match Input a, SwapType a, GetTokenConfig b (PairID a) with
  | None, SwapinType, Some tokenCfg
  | None, SwapoutType, Some tokenCfg =>
      if String.eqb (From a) "" then DcrmAddress tokenCfg else From a
  | _, _, _ => From a
  end.
Proof.
  intros a a'. split; [apply keeps_request_BuildRawTransaction |].
  unfold a', a. rewrite BuildRawTransaction_cases. unfold build_cases.
  pose proof keeps_sender_resolve_and_build as Hr.
  assert (Hc : forall token from value, keeps same_sender (checkTokenBalance b token from value)).
  { intros. apply keeps_checkTokenBalance. typeclasses eauto. }
  assert (Hfrom : forall cfg, From (default_from cfg (args s)) =
                              if String.eqb (From (args s)) ""
                              then DcrmAddress cfg else From (args s)).
  { intros cfg. unfold default_from. destruct (String.eqb (From (args s)) ""); reflexivity. }
  destruct (Input (args s)) as [input |].
  { destruct (negb _); [reflexivity | apply Hr]. }
  destruct (SwapType (args s)).
  - destruct (GetTokenConfig b (PairID (args s))); apply Hr.
  - destruct (GetTokenConfig b (PairID (args s))) as [cfg |]; [| reflexivity].
    rewrite <- Hfrom.
    destruct (IsSrc b); [reflexivity |].
    destruct (valid_bind pk (Bind (args s))); [| reflexivity].
    match goal with |- From (args (snd (_ ?s1))) = _ => apply (Hr _ s1) end.
  - destruct (GetTokenConfig b (PairID (args s))) as [cfg |]; [| reflexivity].
    rewrite <- Hfrom.
    destruct (negb (IsSrc b)); [reflexivity |].
    destruct (IsErc20 cfg).
    + destruct (valid_bind pk (Bind (args s))); [| reflexivity].
      match goal with
      | |- From (args (snd (bind ?m ?f ?s1))) = _ =>
          assert (Hk : keeps same_sender (bind m f))
            by (apply keeps_bind; [typeclasses eauto | apply Hc | intros ?; apply Hr]);
          apply (Hk s1)
      end.
    + match goal with |- From (args (snd (_ ?s1))) = _ => apply (Hr _ s1) end.
Qed.

(** X11: a build that succeeds has passed every check of its leg: a raw
    payload came without swap type; a swap was for a known pair and in the
    direction the endpoint builds, SwapIn on the destination and SwapOut
    on the source endpoint; and on the two contract legs, SwapIn and token
    SwapOut, the bind address passed the address test. *)
Theorem build_success_requirements (s s' : St) tx :
  BuildRawTransaction pk b s = (Ok tx, s') ->
  match Input (args s), SwapType (args s) with
  | _, NoSwapType => True
  | Some _, _ => False
  | None, SwapinType =>
      exists tokenCfg,
        GetTokenConfig b (PairID (args s)) = Some tokenCfg /\
        IsSrc b = false /\
        valid_bind pk (Bind (args s)) = true
  | None, SwapoutType =>
      exists tokenCfg,
        GetTokenConfig b (PairID (args s)) = Some tokenCfg /\
        IsSrc b = true /\
        (IsErc20 tokenCfg = true -> valid_bind pk (Bind (args s)) = true)
  end.
Proof.
  rewrite BuildRawTransaction_cases. unfold build_cases.
  destruct (Input (args s)) as [input |].
  { destruct (SwapType (args s)); cbn; intros H; [exact I | discriminate ..]. }
  destruct (SwapType (args s)); [intros _; exact I | |].
  - destruct (GetTokenConfig b (PairID (args s))) as [cfg |]; [| discriminate].
    destruct (IsSrc b); [discriminate |].
    destruct (valid_bind pk (Bind (args s))); [| discriminate].
    intros _. exists cfg. auto.
  - destruct (GetTokenConfig b (PairID (args s))) as [cfg |]; [| discriminate].
    destruct (IsSrc b); [| discriminate]. cbn [negb].
    destruct (IsErc20 cfg) eqn:EE.
    + destruct (valid_bind pk (Bind (args s))); [| discriminate].
      intros _. exists cfg. auto.
    + intros _. exists cfg. split; [reflexivity | split; [reflexivity | congruence]].
Qed.

(** X12: a successful swap build stamps the intent with the identifier of the
    bridge, [params.GetIdentifier()]; a successful plain build leaves
    [args.Identifier] as it was.  Either way [args.Value] is not [nil]
    afterwards: it is the given value, or zero when none was given. *)
Theorem build_stamps_identifier (s s' : St) tx :
  BuildRawTransaction pk b s = (Ok tx, s') ->
  Identifier (args s') =
  match SwapType (args s) with
  | NoSwapType => Identifier (args s)
  | _ => GetIdentifier pk
  end /\
  Value (args s') = Some (value_or_zero (Value (args s))).
Proof.
  intros H. apply BuildRawTransaction_run_spec in H.
  destruct H as (extra & Ha & _).
  destruct (after_leg_fields (args s)) as (_ & HT & _ & _ & _ & HV & HI & _).
  rewrite Ha. unfold stamp_identifier. cbn [SwapType initialised set_Extra set_Value].
  rewrite HT. destruct (SwapType (args s)); cbn; rewrite ?HV, ?HI; auto.
Qed.

(** X13: a token SwapOut that builds: the payload is the [transfer] call for
    the bind address and the swapped amount, the recipient is the token
    contract, both are left in the intent, and the token balance read for
    the custodial address of the pair, whoever the sender is, covers the
    amount. *)
Theorem token_swapout_build (s s1 s' : St) tokenCfg bal tx :
  SwapType (args s) = SwapoutType ->
  Input (args s) = None ->
  GetTokenConfig b (PairID (args s)) = Some tokenCfg ->
  IsErc20 tokenCfg = true ->
  getErc20Balance b (ContractAddress tokenCfg) (DcrmAddress tokenCfg) s = (Ok (Some bal), s1) ->
  BuildRawTransaction pk b s = (Ok tx, s') ->
  let amount := CalcSwappedValue pk (PairID (args s)) (OriginValue (args s)) false in
  let payload :=
    PackDataWithFuncHash pk (erc20CodeParts_transfer pk)
      [ArgAddress (HexToAddress pk (Bind (args s))); ArgBigInt amount] in
  amount <= bal /\
  tx_data tx = payload /\
  tx_to tx = HexToAddress pk (ContractAddress tokenCfg) /\
  Input (args s') = Some payload /\
  To (args s') = ContractAddress tokenCfg.
Proof.
  intros HT HI HC HE Hbal H amount payload.
  pose proof (BuildRawTransaction_run_spec _ _ _ H) as Hb.
  destruct Hb as (extra & Ha & _ & _ & _ & _ & _ & _ & _ & Hto & Hd).
  unfold payload_of in Hd. unfold after_leg in Ha, Hto.
  rewrite HI, HT, HC, HE in *.
  split; [| split; [exact Hd | split; [exact Hto | rewrite Ha]]].
  2: { unfold stamp_identifier. destruct (negb _); split; reflexivity. }
  rewrite BuildRawTransaction_cases in H. unfold build_cases in H.
  rewrite HI, HT, HC, HE in H.
  destruct (negb (IsSrc b)); [discriminate |].
  destruct (valid_bind pk (Bind (args s))); [| discriminate].
  unfold bind in H.
  rewrite (checkTokenBalance_run _ _ _ s s1 bal _ Hbal) in H.
  fold amount in H. destruct (bal <? amount) eqn:Elt; [discriminate | lia].
Qed.

(** X14: a native-coin SwapOut that builds: the payload is the unlock memo
    prefix followed by the swap id, the recipient is the bind address,
    which is also written to [args.To], and [args.Input] stays [nil]. *)
Theorem coin_swapout_build (s s' : St) tokenCfg tx :
  SwapType (args s) = SwapoutType ->
  Input (args s) = None ->
  GetTokenConfig b (PairID (args s)) = Some tokenCfg ->
  IsErc20 tokenCfg = false ->
  BuildRawTransaction pk b s = (Ok tx, s') ->
  tx_data tx = list_byte_of_string (String.append (UnlockMemoPrefix pk) (SwapID (args s))) /\
  tx_to tx = HexToAddress pk (Bind (args s)) /\
  To (args s') = Bind (args s) /\
  Input (args s') = None.
Proof.
  intros HT HI HC HE H.
  apply BuildRawTransaction_run_spec in H.
  destruct H as (extra & Ha & _ & _ & _ & _ & _ & _ & _ & Hto & Hd).
  unfold payload_of in Hd. unfold after_leg in Ha, Hto.
  rewrite HI, HT, HC, HE in *.
  split; [exact Hd | split; [exact Hto | rewrite Ha]].
  unfold stamp_identifier, default_from.
  destruct (negb _), (String.eqb (From (args s)) ""); cbn; auto.
Qed.

(** X15: a plain build, one without swap type: the transaction carries the raw
    payload of the intent, or no data when there is none, and goes to
    [args.To]; the intent keeps its identifier, sender, recipient and
    payload; the sequencer is not called.  Such a build can fail only with
    an error of the gateway or for want of coin balance. *)
Theorem plain_build (s s' : St) r :
  SwapType (args s) = NoSwapType ->
  BuildRawTransaction pk b s = (r, s') ->
  sequencer_calls (trace s') = sequencer_calls (trace s) /\
  match r with
  | Ok tx =>
      tx_data tx = match Input (args s) with Some input => input | None => [] end /\
      tx_to tx = HexToAddress pk (To (args s)) /\
      Identifier (args s') = Identifier (args s) /\
      From (args s') = From (args s) /\
      To (args s') = To (args s) /\
      Input (args s') = Input (args s)
  | Fail e => network_or_balance_error e
  | Panic => False
  end.
Proof.
  intros HT H. apply BuildRawTransaction_run_spec in H.
  assert (Hleg : after_leg pk b (args s) = args s).
  { unfold after_leg. rewrite HT. destruct (Input (args s)); reflexivity. }
  assert (Hused : sequencer_used b (args s) = 0%nat).
  { unfold sequencer_used, custodial_swap. rewrite HT. destruct (Nonce _); reflexivity. }
  destruct r as [tx | e |]; [| | contradiction].
  - destruct H as (extra & Ha & _ & _ & _ & Hc & _ & _ & _ & Hto & Hd).
    rewrite Hleg in *. rewrite Hused in Hc. split; [lia |].
    unfold payload_of in Hd. rewrite HT in Hd.
    split; [destruct (Input (args s)); exact Hd |]. split; [exact Hto |].
    rewrite Ha. unfold stamp_identifier. cbn [SwapType initialised set_Extra set_Value].
    rewrite HT. cbn. auto.
  - destruct H as [He Hc]. rewrite Hleg, Hused in Hc.
    split; [destruct (coin_balance_error e); lia |].
    destruct e as [| | | | | ? ? | ? ? ? | ? e' |]; cbn in He |- *;
      try exact I;
      try (destruct e'; (contradiction || exact I));
      unfold wrong_endpoint in He; rewrite ?HT in He; intuition congruence.
Qed.

(** ** The gas price outside the markup *)

(** X16: no markup is applied to the gas price of a plain build, nor to that of
    a swap whose pair has no positive markup percentage: the gas price
    that [setDefaults] resolves for an intent without one is the price the
    gateway suggested. *)
Theorem gas_price_without_markup (s s1 s' : St) p extra :
  gas_price_unset (args s) = true ->
  SwapType (args s) = NoSwapType \/
  (exists tokenCfg, GetTokenConfig b (PairID (args s)) = Some tokenCfg /\
                    PlusGasPricePercentage tokenCfg <= 0) ->
  getGasPrice b s = (Ok (Some p), s1) ->
  setDefaults b s = (Ok extra, s') ->
  GasPrice extra = Some p.
Proof.
  intros Hunset Hcase Hprice H.
  pose proof (setDefaults_returns_extra _ _ _ H) as Hfinal.
  unfold setDefaults in H. rewrite bind_getArgs in H.
  apply bind_Ok in H as (u1 & t1 & H1 & H).
  assert (Ht1 : exists a1, t1 = with_args a1 s /\ Extra a1 = Extra (args s)).
  { destruct (Value (args s)); injection H1 as _ <-.
    - exists (args s). split; [destruct s; reflexivity | reflexivity].
    - eexists. split; reflexivity. }
  destruct Ht1 as (a1 & -> & Ha1). clear H1.
  apply bind_Ok in H as (u2 & t2 & H2 & H).
  assert (Ht2 : exists a2 e0, t2 = with_args a2 s /\
                              Extra a2 = Some (mkAllExtras (Some e0)) /\ GasPrice e0 = None).
  { unfold gas_price_unset in Hunset.
    destruct (Extra (args s)) as [[[e0 |]] |] eqn:Eex; injection H2 as _ <-.
    - exists a1, e0. destruct (GasPrice e0); [discriminate | auto].
    - eexists _, _. split; [reflexivity |]. split; reflexivity.
    - eexists _, _. split; [reflexivity |]. split; reflexivity. }
  destruct Ht2 as (a2 & e0 & -> & Ha2 & He0). clear H2.
  rewrite (bind_run _ _ _ _ _ (getExtra_run (with_args a2 s) e0 Ha2)) in H. rewrite He0 in H.
  apply bind_Ok in H as (u4 & t4 & H4 & H).
  assert (Ht4 : exists e4, Extra (args t4) = Some (mkAllExtras (Some e4)) /\
                           GasPrice e4 = Some p).
  { rewrite (bind_run _ _ _ _ _ (getGasPrice_with_args s s1 _ a2 Hprice)) in H4.
    unfold bind at 1 in H4.
    rewrite (modifyExtra_run _ (with_args a2 s1) e0 Ha2) in H4.
    destruct Hcase as [Ht | (cfg & Hcfg & Hm)].
    - rewrite Ht in H4. cbn [SwapType_eqb negb] in H4.
      inversion H4; subst; eexists; split; reflexivity.
    - destruct (negb (SwapType_eqb (SwapType (args s)) NoSwapType)).
      + rewrite Hcfg in H4.
        destruct (PlusGasPricePercentage cfg >? 0) eqn:Egt; [lia |].
        inversion H4; subst; eexists; split; reflexivity.
      + inversion H4; subst; eexists; split; reflexivity. }
  destruct Ht4 as (e4 & He4 & Hp4). clear H4.
  match type of H with
  | ?m t4 = _ => assert (Hk : keeps same_gas_price m)
  end.
  { solve_keeps;
      match goal with
      | Hx : Extra _ = Some _ |- _ =>
          intros e1 He1; rewrite Hx in He1; inversion He1; subst;
          eexists; split; reflexivity
      end. }
  specialize (Hk t4). rewrite H in Hk. cbn [snd] in Hk.
  destruct (Hk e4 He4) as (e' & He' & Hpe').
  rewrite Hfinal in He'. inversion He'; subst. congruence.
Qed.

(** X17: when the gas price is left to the builder and the gateway does not
    give one, [setDefaults] returns the error of the gateway as it is and
    stops there: nothing is asked after the failed attempts, neither nonce
    nor balance, and the intent is left with [Value] and [Extra]
    initialised and the overrides as given. *)
Theorem gas_price_failure_stops_resolution (s s1 : St) e :
  gas_price_unset (args s) = true ->
  getGasPrice b s = (Fail e, s1) ->
  setDefaults b s =
  (Fail e, with_args (initialised (args s) (given_extras (args s))) s1).
Proof.
  intros Hunset Hprice.
  assert (Hgo : forall a2 e0,
            Extra a2 = Some (mkAllExtras (Some e0)) -> GasPrice e0 = None ->
            forall (k1 : option Z -> M unit) (k2 : unit -> M EthExtraArgs),
            bind getExtra
                 (fun extra =>
                    bind (match GasPrice extra with
                          | None => bind (getGasPrice b) k1
                          | Some _ => ret tt
                          end) k2)
                 (with_args a2 s) = (Fail e, with_args a2 s1)).
  { intros a2 e0 Ha2 He0 k1 k2.
    rewrite (bind_run _ _ _ _ _ (getExtra_run (with_args a2 s) e0 Ha2)). rewrite He0.
    apply bind_run_Fail, bind_run_Fail, getGasPrice_with_args, Hprice. }
  unfold gas_price_unset in Hunset. unfold setDefaults. rewrite bind_getArgs.
  unfold initialised, given_extras, extras_of.
  destruct (Value (args s)) as [v |] eqn:EV; cbn [value_or_zero];
    rewrite ?bind_ret, ?bind_modifyArgs;
    destruct (Extra (args s)) as [[[e0 |]] |] eqn:EX;
    rewrite ?bind_ret, ?bind_modifyArgs.
  - destruct (GasPrice e0) eqn:EG; [discriminate |].
    replace s with (with_args (args s) s) at 1 by (destruct s; reflexivity).
    erewrite Hgo; [| exact EX | exact EG]. f_equal. f_equal.
    rewrite (set_Value_given _ _ EV).
    symmetry. apply set_Extra_same. unfold extras_of. rewrite EX. reflexivity.
  - replace (mkSt _ (net s) (trace s)) with
      (with_args (set_Extra (Some (mkAllExtras (Some (mkEthExtraArgs None None None)))) (args s)) s)
      by reflexivity.
    erewrite Hgo; [| reflexivity | reflexivity]. f_equal. f_equal.
    rewrite (set_Value_given _ _ EV). reflexivity.
  - replace (mkSt _ (net s) (trace s)) with
      (with_args (set_Extra (Some (mkAllExtras (Some (mkEthExtraArgs None None None)))) (args s)) s)
      by reflexivity.
    erewrite Hgo; [| reflexivity | reflexivity]. f_equal. f_equal.
    rewrite (set_Value_given _ _ EV). reflexivity.
  - destruct (GasPrice e0) eqn:EG; [discriminate |].
    replace (mkSt _ (net s) (trace s)) with
      (with_args (set_Value (Some 0) (args s)) s) by reflexivity.
    erewrite Hgo; [| cbn; exact EX | exact EG]. f_equal. f_equal.
    symmetry. apply set_Extra_same. unfold extras_of. cbn. rewrite EX. reflexivity.
  - cbn [args net trace].
    replace (mkSt _ (net s) (trace s)) with
      (with_args (set_Extra (Some (mkAllExtras (Some (mkEthExtraArgs None None None))))
                            (set_Value (Some 0) (args s))) s) by reflexivity.
    erewrite Hgo; [| reflexivity | reflexivity]. reflexivity.
  - cbn [args net trace].
    replace (mkSt _ (net s) (trace s)) with
      (with_args (set_Extra (Some (mkAllExtras (Some (mkEthExtraArgs None None None))))
                            (set_Value (Some 0) (args s))) s) by reflexivity.
    erewrite Hgo; [| reflexivity | reflexivity]. reflexivity.
Qed.

(** X18: [buildTx] depends on [setDefaults] having run: called with a record
    whose nonce or gas limit is [nil], or for a plain build whose gas
    price is [nil], it dereferences the [nil] pointer before it has
    changed anything. *)
Theorem buildTx_needs_resolved_extras extra input (s : St) :
  Nonce extra = None \/ Gas extra = None \/
  (GasPrice extra = None /\ SwapType (args s) = NoSwapType) ->
  buildTx pk b extra input s = (Panic, s).
Proof.
  intros H. unfold buildTx. rewrite bind_getArgs.
  destruct (Nonce extra) as [nonce |]; [| reflexivity].
  destruct (Gas extra) as [gasLimit |]; [| reflexivity].
  destruct H as [H | [H | [HP HT]]]; try discriminate.
  rewrite HP, HT. reflexivity.
Qed.

End Properties.

(** * Runs on the test bench *)

Module Runs.

Import Bench.

(** ** C1 *)

Lemma swapin_build_witness :
  exists tx s',
    BuildRawTransaction packages (bridge false 10) swapin_intent = (Ok tx, s') /\
    tx_to tx = 226 /\
    tx_data tx = [xec; x12; x6c; x77] ++ be_bytes 32 90 ++ be_bytes 32 163 ++ be_bytes 32 500 /\
    Input (args s') = Some (tx_data tx) /\
    To (args s') = contract.
Proof.
  destruct (BuildRawTransaction packages (bridge false 10) swapin_intent)
    as [[tx | e |] s'] eqn:E; [| vm_compute in E; discriminate E ..].
  exists tx, s'. split; [reflexivity |].
  destruct (swapin_payload_and_recipient packages (bridge false 10) swapin_intent s' tx
              eq_refl eq_refl
              ltac:(vm_compute; reflexivity) ltac:(vm_compute; discriminate) E)
    as (token & Hcfg & Hdata & Hto & Hin & HTo).
  vm_compute in Hcfg. injection Hcfg as <-.
  rewrite Hin, Hdata, Hto, HTo. vm_compute. repeat split.
Defined.

(** ** C2 *)

Lemma wrong_endpoint_witness :
  wrong_endpoint (bridge true 10) (SwapType (args swapin_intent)) /\
  BuildRawTransaction packages (bridge true 10) swapin_intent =
  (Fail ErrBuildSwapTxInWrongEndpoint,
   with_args (set_From custodian (args swapin_intent)) swapin_intent).
Proof.
  assert (Hw : wrong_endpoint (bridge true 10) (SwapType (args swapin_intent)))
    by (left; split; reflexivity).
  split; [exact Hw |].
  destruct (wrong_endpoint_rejected packages (bridge true 10) swapin_intent Hw)
    as (e & a' & Hrun & Hcase).
  vm_compute in Hcase. destruct Hcase as (-> & _ & ->). exact Hrun.
Defined.

(** On the origin endpoint the SwapIn of [swapin_intent], whose sender is
    empty, is refused with the wrong-endpoint error, but the intent does
    not come back as it was: its sender is now the custodial address. *)
Lemma wrong_endpoint_mutates_sender :
  ~ (exists e s',
        BuildRawTransaction packages (bridge true 10) swapin_intent = (Fail e, s') /\
        error_kind e = DirectionError /\
        args s' = args swapin_intent).
Proof.
  intros (e & s' & H & _ & Ha).
  vm_compute in H. inversion H; subst. vm_compute in Ha. discriminate Ha.
Qed.

(** ** C3 *)

Lemma failed_build_witness :
  exists s1 a',
    getErc20Balance (bridge true 10) contract custodian poor_token_swapout =
      (Ok (Some 100), s1) /\
    BuildRawTransaction packages (bridge true 10) poor_token_swapout =
      (Fail (ErrNotEnoughTokenBalance 100 500), with_args a' s1) /\
    To a' = contract /\
    Input a' = Some (transfer_payload packages (args poor_token_swapout)).
Proof.
  destruct (getErc20Balance (bridge true 10) contract custodian poor_token_swapout)
    as [r s1] eqn:Ebal.
  assert (r = Ok (Some 100)) as -> by (vm_compute in Ebal; congruence).
  destruct (proj2 (failed_build_leaves_leg_fields packages (bridge true 10))
              poor_token_swapout s1 (mkTokenConfig custodian contract true 10 60000) 100
              eq_refl eq_refl eq_refl eq_refl eq_refl
              ltac:(vm_compute; reflexivity) Ebal ltac:(vm_compute; reflexivity))
    as (a' & Hrun & HTo & HIn).
  exists s1, a'. repeat split; assumption.
Defined.

(** The token SwapOut of [poor_token_swapout] fails its token-balance
    check, and the intent comes back with another recipient and another
    payload than it had. *)
Lemma failed_token_check_mutates_intent :
  exists s',
    BuildRawTransaction packages (bridge true 10) poor_token_swapout =
      (Fail (ErrNotEnoughTokenBalance 100 500), s') /\
    To (args s') <> To (args poor_token_swapout) /\
    Input (args s') <> Input (args poor_token_swapout).
Proof.
  eexists. split; [vm_compute; reflexivity |].
  split; vm_compute; discriminate.
Qed.

(** ** C4 *)

(** C4, where the code departs from it: on the origin endpoint a coin
    SwapOut whose bind address is the empty string, which is no hex
    address, is built all the same; the transaction goes to the zero
    address with the memo as payload. *)
Theorem coin_swapout_accepts_invalid_bind :
  IsHexAddress packages (Bind (args unbound_coin_swapout)) = false /\
  exists tx s',
    BuildRawTransaction packages (bridge true 10) unbound_coin_swapout = (Ok tx, s') /\
    tx_to tx = 0 /\
    tx_data tx = list_byte_of_string "SWAPTO:0x5a" /\
    tx_value tx = Some 500.
Proof.
  split; [reflexivity |].
  eexists _, _. split; [vm_compute; reflexivity |].
  repeat split.
Qed.

(** ** C5 *)

Lemma raw_payload_witness :
  Input (args raw_swapin_intent) = Some [x01] /\
  SwapType (args raw_swapin_intent) <> NoSwapType /\
  BuildRawTransaction packages (bridge false 10) raw_swapin_intent =
    (Fail ErrForbidRawSwapTxWithInput, raw_swapin_intent) /\
  error_kind ErrForbidRawSwapTxWithInput = ValidationError.
Proof.
  assert (Hty : SwapType (args raw_swapin_intent) <> NoSwapType) by discriminate.
  split; [reflexivity |]. split; [exact Hty |].
  exact (raw_payload_with_direction_rejected packages (bridge false 10)
           raw_swapin_intent [x01] eq_refl Hty).
Defined.

(** ** C6 *)

Lemma gas_price_markup_witness :
  exists extra s',
    setDefaults (bridge false 10) swapin_intent = (Ok extra, s') /\
    GasPrice extra = Some 110.
Proof.
  destruct (setDefaults (bridge false 10) swapin_intent) as [[extra | e |] s'] eqn:E;
    [| vm_compute in E; discriminate E ..].
  exists extra, s'. split; [reflexivity |].
  destruct (getGasPrice (bridge false 10) swapin_intent) as [r s1] eqn:Eprice.
  assert (r = Ok (Some 100)) as -> by (vm_compute in Eprice; congruence).
  exact (proj1 (gas_price_markup (bridge false 10) swapin_intent s1 s'
                  (mkTokenConfig custodian contract true 10 60000) 100 extra
                  eq_refl ltac:(discriminate) eq_refl Eprice
                  ltac:(vm_compute; discriminate) ltac:(vm_compute; discriminate) E)).
Defined.

(** Suggested price 99 with markup 10 resolves to 108. *)
Example gas_price_99_markup_10 :
  exists extra s',
    setDefaults (bridge false 10)
      (start (intent "TOKEN" SwapinType user "" None None)
             (mkChain 0 (2 * 10 ^ 16) 1000 99 7 0)) = (Ok extra, s') /\
    GasPrice extra = Some 108.
Proof. eexists _, _. split; [vm_compute; reflexivity | reflexivity]. Qed.

(** With a markup of [2^63 - 100] per cent the sum [100 + markup] is
    [2^63], which [int64] reads as [-2^63]: the suggested price 100
    resolves to [-2^63], not to [100 * 2^63 / 100]. *)
Lemma gas_price_markup_wraps :
  exists extra s',
    setDefaults (bridge false huge_markup) swapin_intent = (Ok extra, s') /\
    GasPrice extra = Some (- 2 ^ 63) /\
    GasPrice extra <> Some (100 * (100 + huge_markup) / 100).
Proof.
  eexists _, _. split; [vm_compute; reflexivity |].
  split; [reflexivity | vm_compute; discriminate].
Qed.

(** ** C7 *)

Lemma coin_balance_requirement_witness :
  exists s1,
    getBalance (bridge true 10) user (transfer 30 39) = (Ok (Some 39), s1) /\
    buildTx packages (bridge true 10) (mkEthExtraArgs (Some 10) (Some 1) (Some 0)) []
            (transfer 30 39) =
    (Fail (ErrNotEnoughCoinBalance 39 (Some 30) (Some 10)), s1).
Proof.
  destruct (getBalance (bridge true 10) user (transfer 30 39)) as [r s1] eqn:Ebal.
  pose proof Ebal as Hrun. vm_compute in Hrun. injection Hrun as <- <-.
  eexists. split; [reflexivity |].
  rewrite (proj1 (proj2 (coin_balance_requirement packages (bridge true 10)))
             (mkEthExtraArgs (Some 10) (Some 1) (Some 0)) [] (transfer 30 39) _
             0 10 1 39 eq_refl eq_refl eq_refl ltac:(discriminate) Ebal).
  reflexivity.
Defined.

(** A transfer of 30 with fee 10 from a balance of 100 is built. *)
Example balance_100_value_30_fee_10 :
  exists tx s',
    BuildRawTransaction packages (bridge true 10) (transfer 30 100) = (Ok tx, s') /\
    tx_value tx = Some 30.
Proof. eexists _, _. split; [vm_compute; reflexivity | reflexivity]. Qed.

(** A transfer whose value is -5, with fee 10, from a balance of 7: the
    balance is at least value plus fee, and yet the check fails, because a
    value that is not positive is not counted. *)
Lemma negative_value_not_counted :
  7 >= -5 + 10 /\
  exists s',
    BuildRawTransaction packages (bridge true 10) (transfer (-5) 7) =
    (Fail (ErrNotEnoughCoinBalance 7 (Some (-5)) (Some 10)), s').
Proof.
  split; [lia |].
  eexists. vm_compute. reflexivity.
Qed.

(** ** C8 *)

Lemma nonce_resolution_witness :
  exists s1 s',
    fetchPoolNonce (bridge false 10) custodian custodial_swapin = (Ok (Some 7), s1) /\
    getAccountNonce (bridge false 10) "TOKEN" custodian SwapinType custodial_swapin =
      (Ok 20, s') /\
    sequencer_calls (trace s') = 1%nat.
Proof.
  destruct (fetchPoolNonce (bridge false 10) custodian custodial_swapin)
    as [r s1] eqn:Efetch.
  pose proof Efetch as Hrun. vm_compute in Hrun. injection Hrun as <- <-.
  eexists _, _. split; [reflexivity |].
  pose proof (nonce_resolution (bridge false 10) "TOKEN" custodian SwapinType
                custodial_swapin _ 7 Efetch) as H.
  change (custodial_swap (bridge false 10) "TOKEN" custodian SwapinType) with true in H.
  destruct H as [Hget Hcount]. split.
  - rewrite Hget. reflexivity.
  - reflexivity.
Defined.

(** A build without swap direction whose sender is the custodial address
    of its pair gets the fetched nonce 7; the sequencer, which would have
    answered 20, is not called. *)
Lemma custodial_transfer_skips_sequencer :
  (exists tokenCfg,
      GetTokenConfig (bridge false 10) "TOKEN" = Some tokenCfg /\
      DcrmAddress tokenCfg = From (args custodial_transfer)) /\
  exists s',
    getAccountNonce (bridge false 10) "TOKEN" custodian NoSwapType custodial_transfer =
      (Ok 7, s') /\
    sequencer_calls (trace s') = 0%nat /\
    fst (AdjustNonce (bridge false 10) "TOKEN" 7 (net s')) = 20.
Proof.
  split.
  - eexists. split; reflexivity.
  - eexists. split; [vm_compute; reflexivity |]. split; reflexivity.
Qed.

(** ** C10 *)

Lemma transaction_value_witness :
  Value (args unbound_coin_swapout) = Some 7 /\
  exists tx s',
    BuildRawTransaction packages (bridge true 10) unbound_coin_swapout = (Ok tx, s') /\
    tx_value tx = Some 500.
Proof.
  split; [reflexivity |].
  destruct (BuildRawTransaction packages (bridge true 10) unbound_coin_swapout)
    as [[tx | e |] s'] eqn:E; [| vm_compute in E; discriminate E ..].
  exists tx, s'. split; [reflexivity |].
  pose proof (transaction_value packages (bridge true 10) unbound_coin_swapout s' tx E) as H.
  change (SwapType (args unbound_coin_swapout)) with SwapoutType in H.
  destruct H as (cfg & Hcfg & Hval).
  vm_compute in Hcfg. injection Hcfg as <-. exact Hval.
Defined.

(** ** C9 *)

(** Two failures, then an answer: three attempts, two sleeps. *)
Example balance_after_two_failures :
  getBalance (bridge true 10) user (start (args swapin_intent) flaky_chain) =
  (Ok (Some (2 * 10 ^ 16)),
   mkSt (args swapin_intent) (mkChain 0 (2 * 10 ^ 16) 1000 100 7 0)
        [EvCall (RpcGetBalance user); EvSleep 1000000000;
         EvCall (RpcGetBalance user); EvSleep 1000000000;
         EvCall (RpcGetBalance user)]).
Proof. vm_compute. reflexivity. Qed.

(** Three failures: the third error comes back after three attempts. *)
Example balance_never_answered :
  getBalance (bridge true 10) user
    (start (args swapin_intent) (mkChain 5 (2 * 10 ^ 16) 1000 100 7 0)) =
  (Fail (ErrRPC "connection refused"),
   mkSt (args swapin_intent) (mkChain 2 (2 * 10 ^ 16) 1000 100 7 0)
        [EvCall (RpcGetBalance user); EvSleep 1000000000;
         EvCall (RpcGetBalance user); EvSleep 1000000000;
         EvCall (RpcGetBalance user); EvSleep 1000000000]).
Proof. vm_compute. reflexivity. Qed.

(** ** Runs of the further properties *)

Lemma setDefaults_initialises_intent_witness :
  (exists extra s',
      setDefaults (bridge false 10) swapin_intent = (Ok extra, s') /\
      extras_of (args s') = Some extra /\
      all_resolved extra /\
      Value (args s') = Some 0) /\
  (exists e s' extra,
      setDefaults (bridge false 10) unreachable_swapin = (Fail e, s') /\
      args s' = initialised (args unreachable_swapin) extra /\
      Value (args s') = Some 0).
Proof.
  split.
  - destruct (setDefaults (bridge false 10) swapin_intent) as [[extra | e |] s'] eqn:E;
      [| vm_compute in E; discriminate E ..].
    exists extra, s'. split; [reflexivity |].
    destruct (proj1 (setDefaults_initialises_intent (bridge false 10) swapin_intent s')
                extra E) as (_ & He & Hr & Hv).
    auto.
  - destruct (setDefaults (bridge false 10) unreachable_swapin) as [[extra | e |] s'] eqn:E;
      [vm_compute in E; discriminate E | | vm_compute in E; discriminate E].
    destruct (proj2 (setDefaults_initialises_intent (bridge false 10) unreachable_swapin s')
                e E) as (extra & Ha & Hv).
    exists e, s', extra. auto.
Defined.

Lemma setDefaults_keeps_overrides_witness :
  exists extra s',
    setDefaults (bridge false 10) priced_swapin = (Ok extra, s') /\
    GasPrice extra = Some 5 /\
    Gas extra = Some 60000.
Proof.
  destruct (setDefaults (bridge false 10) priced_swapin) as [[extra | e |] s'] eqn:E;
    [| vm_compute in E; discriminate E ..].
  exists extra, s'. split; [reflexivity |].
  destruct (setDefaults_keeps_overrides (bridge false 10) priced_swapin s' extra E)
    as ((_ & Hp & _) & Hg).
  split.
  - apply Hp. vm_compute. discriminate.
  - destruct (Hg eq_refl) as (Hgas & _). exact Hgas.
Defined.

Lemma setDefaults_with_all_overrides_witness :
  setDefaults (bridge false 10) (transfer 30 100) =
  (Ok (mkEthExtraArgs (Some 10) (Some 1) (Some 0)), transfer 30 100).
Proof.
  assert (He : extras_of (args (transfer 30 100)) =
               Some (mkEthExtraArgs (Some 10) (Some 1) (Some 0)))
    by (vm_compute; reflexivity).
  assert (Hr : all_resolved (mkEthExtraArgs (Some 10) (Some 1) (Some 0)))
    by (repeat split; discriminate).
  rewrite (setDefaults_with_all_overrides (bridge false 10) (transfer 30 100) _ He Hr).
  vm_compute. reflexivity.
Defined.

Lemma setDefaults_idempotent_witness :
  exists extra s',
    setDefaults (bridge false 10) swapin_intent = (Ok extra, s') /\
    setDefaults (bridge false 10) s' = (Ok extra, s').
Proof.
  destruct (setDefaults (bridge false 10) swapin_intent) as [[extra | e |] s'] eqn:E;
    [| vm_compute in E; discriminate E ..].
  exists extra, s'. split; [reflexivity |].
  exact (setDefaults_idempotent (bridge false 10) swapin_intent s' extra E).
Defined.

Lemma setDefaults_sequencer_calls_witness :
  exists extra s',
    setDefaults (bridge false 10) custodial_swapin = (Ok extra, s') /\
    sequencer_calls (trace s') = 1%nat.
Proof.
  destruct (setDefaults (bridge false 10) custodial_swapin) as [[extra | e |] s'] eqn:E;
    [| vm_compute in E; discriminate E ..].
  exists extra, s'. split; [reflexivity |].
  exact (setDefaults_sequencer_calls (bridge false 10) custodial_swapin s' (Ok extra) E).
Defined.

Lemma built_transaction_parameters_witness :
  exists tx s' extra,
    BuildRawTransaction packages (bridge false 10) priced_swapin = (Ok tx, s') /\
    extras_of (args s') = Some extra /\
    Nonce extra = Some (tx_nonce tx) /\
    Gas extra = Some (tx_gasLimit tx) /\
    GasPrice extra = tx_gasPrice tx /\
    tx_gasPrice tx <> None.
Proof.
  destruct (BuildRawTransaction packages (bridge false 10) priced_swapin)
    as [[tx | e |] s'] eqn:E; [| vm_compute in E; discriminate E ..].
  destruct (built_transaction_parameters packages (bridge false 10) priced_swapin s' tx E)
    as (extra & He & Hn & Hg & Hp & Hne & _).
  exists tx, s', extra. auto 10.
Defined.

Lemma build_errors_have_causes_witness :
  exists e s',
    BuildRawTransaction packages (bridge true 10) poor_token_swapout = (Fail e, s') /\
    error_cause packages (bridge true 10) (args poor_token_swapout) e.
Proof.
  destruct (BuildRawTransaction packages (bridge true 10) poor_token_swapout)
    as [[tx | e |] s'] eqn:E;
    [vm_compute in E; discriminate E | | vm_compute in E; discriminate E].
  exists e, s'. split; [reflexivity |].
  exact (build_errors_have_causes packages (bridge true 10) poor_token_swapout s' e E).
Defined.

(** The swap of [poor_custodial_swapin] fails at the coin balance check,
    and the sequencer has been called once by then. *)
Lemma build_sequencer_calls_witness :
  exists e s',
    BuildRawTransaction packages (bridge false 10) poor_custodial_swapin = (Fail e, s') /\
    coin_balance_error e = true /\
    sequencer_calls (trace s') = 1%nat.
Proof.
  destruct (BuildRawTransaction packages (bridge false 10) poor_custodial_swapin)
    as [[tx | e |] s'] eqn:E;
    [vm_compute in E; discriminate E | | vm_compute in E; discriminate E].
  exists e, s'. split; [reflexivity |].
  assert (He : coin_balance_error e = true).
  { pose proof E as Hrun. vm_compute in Hrun. injection Hrun as <- _. reflexivity. }
  split; [exact He |].
  destruct (build_sequencer_calls packages (bridge false 10) poor_custodial_swapin s'
              (Fail e) E) as (Hc & _).
  rewrite He in Hc. exact Hc.
Defined.

Lemma build_success_requirements_witness :
  exists tx s' tokenCfg,
    BuildRawTransaction packages (bridge false 10) swapin_intent = (Ok tx, s') /\
    GetTokenConfig (bridge false 10) (PairID (args swapin_intent)) = Some tokenCfg /\
    IsSrc (bridge false 10) = false /\
    valid_bind packages (Bind (args swapin_intent)) = true.
Proof.
  destruct (BuildRawTransaction packages (bridge false 10) swapin_intent)
    as [[tx | e |] s'] eqn:E; [| vm_compute in E; discriminate E ..].
  destruct (build_success_requirements packages (bridge false 10) swapin_intent s' tx E)
    as (cfg & Hcfg & Hsrc & Hbind).
  exists tx, s', cfg. auto.
Defined.

Lemma build_stamps_identifier_witness :
  exists tx s',
    BuildRawTransaction packages (bridge false 10) swapin_intent = (Ok tx, s') /\
    Identifier (args s') = "bridge-test" /\
    Value (args s') = Some 0.
Proof.
  destruct (BuildRawTransaction packages (bridge false 10) swapin_intent)
    as [[tx | e |] s'] eqn:E; [| vm_compute in E; discriminate E ..].
  exists tx, s'. split; [reflexivity |].
  exact (build_stamps_identifier packages (bridge false 10) swapin_intent s' tx E).
Defined.

Lemma token_swapout_build_witness :
  exists tx s',
    BuildRawTransaction packages (bridge true 10) token_swapout = (Ok tx, s') /\
    tx_data tx = [xa9; x05; x9c; xbb] ++ be_bytes 32 163 ++ be_bytes 32 500 /\
    tx_to tx = 226 /\
    To (args s') = contract.
Proof.
  destruct (BuildRawTransaction packages (bridge true 10) token_swapout)
    as [[tx | e |] s'] eqn:E; [| vm_compute in E; discriminate E ..].
  destruct (getErc20Balance (bridge true 10) contract custodian token_swapout)
    as [r s1] eqn:Ebal.
  assert (r = Ok (Some 1000)) as -> by (vm_compute in Ebal; congruence).
  destruct (token_swapout_build packages (bridge true 10) token_swapout s1 s'
              (mkTokenConfig custodian contract true 10 60000) 1000 tx
              eq_refl eq_refl eq_refl eq_refl Ebal E)
    as (_ & Hd & Hto & _ & HTo).
  exists tx, s'. rewrite Hd, Hto, HTo. vm_compute. auto.
Defined.

Lemma coin_swapout_build_witness :
  exists tx s',
    BuildRawTransaction packages (bridge true 10) coin_swapout = (Ok tx, s') /\
    tx_data tx = list_byte_of_string "SWAPTO:0x5a" /\
    tx_to tx = 163 /\
    To (args s') = user /\
    Input (args s') = None.
Proof.
  destruct (BuildRawTransaction packages (bridge true 10) coin_swapout)
    as [[tx | e |] s'] eqn:E; [| vm_compute in E; discriminate E ..].
  destruct (coin_swapout_build packages (bridge true 10) coin_swapout s'
              (mkTokenConfig custodian "" false 10 0) tx
              eq_refl eq_refl eq_refl eq_refl E)
    as (Hd & Hto & HTo & Hin).
  exists tx, s'. rewrite Hd, Hto, HTo, Hin. vm_compute. auto.
Defined.

Lemma plain_build_witness :
  exists tx s',
    BuildRawTransaction packages (bridge true 10) (transfer 30 100) = (Ok tx, s') /\
    sequencer_calls (trace s') = 0%nat /\
    tx_data tx = [] /\
    args s' = args (transfer 30 100).
Proof.
  destruct (BuildRawTransaction packages (bridge true 10) (transfer 30 100))
    as [[tx | e |] s'] eqn:E; [| vm_compute in E; discriminate E ..].
  destruct (plain_build packages (bridge true 10) (transfer 30 100) s' (Ok tx) eq_refl E)
    as (Hc & Hd & _).
  exists tx, s'. split; [reflexivity |]. split; [exact Hc |]. split; [exact Hd |].
  pose proof E as Hrun. vm_compute in Hrun. injection Hrun as _ <-. reflexivity.
Defined.

Lemma gas_price_without_markup_witness :
  exists extra s',
    setDefaults (bridge false 10) custodial_transfer = (Ok extra, s') /\
    GasPrice extra = Some 100.
Proof.
  destruct (setDefaults (bridge false 10) custodial_transfer) as [[extra | e |] s'] eqn:E;
    [| vm_compute in E; discriminate E ..].
  exists extra, s'. split; [reflexivity |].
  destruct (getGasPrice (bridge false 10) custodial_transfer) as [r s1] eqn:Eprice.
  assert (r = Ok (Some 100)) as -> by (vm_compute in Eprice; congruence).
  exact (gas_price_without_markup (bridge false 10) custodial_transfer s1 s' 100 extra
           eq_refl (or_introl eq_refl) Eprice E).
Defined.

Lemma gas_price_failure_stops_resolution_witness :
  exists s1,
    getGasPrice (bridge false 10) unreachable_swapin =
      (Fail (ErrRPC "connection refused"), s1) /\
    setDefaults (bridge false 10) unreachable_swapin =
      (Fail (ErrRPC "connection refused"),
       with_args (initialised (args unreachable_swapin)
                              (mkEthExtraArgs None None None)) s1).
Proof.
  destruct (getGasPrice (bridge false 10) unreachable_swapin) as [r s1] eqn:Eprice.
  assert (r = Fail (ErrRPC "connection refused")) as ->
    by (vm_compute in Eprice; congruence).
  exists s1. split; [reflexivity |].
  exact (gas_price_failure_stops_resolution (bridge false 10) unreachable_swapin s1
           (ErrRPC "connection refused") eq_refl Eprice).
Defined.

Lemma buildTx_needs_resolved_extras_witness :
  buildTx packages (bridge false 10) (mkEthExtraArgs (Some 60000) (Some 100) None) []
          swapin_intent =
  (Panic, swapin_intent).
Proof.
  exact (buildTx_needs_resolved_extras packages (bridge false 10)
           (mkEthExtraArgs (Some 60000) (Some 100) None) [] swapin_intent
           (or_introl eq_refl)).
Defined.

End Runs.
